(** * Aura Cleaning: pricing calculator and page modules

    A shallow embedding of [assets/js/calculator.js] and of the page script
    (header, accordion, modal, smooth scroll, animations, mobile menu),
    followed by the properties the specification states about them.

    Conventions of the embedding.
    - A JavaScript number that holds an integer is a [Z]; [NaN] is kept
      apart because [parseInt] can produce it and every comparison with it
      is false.  Magnitudes beyond 2^53 are outside the model.
    - [undefined] and [null] are distinct values; truthiness follows
      ECMAScript's ToBoolean.
    - Property keys of object literals are strings, as in the language. *)

From Stdlib Require Import ZArith Lia Bool Ascii String DecimalString.
From stdpp Require Import base option list strings.

Local Open Scope string_scope.
Local Open Scope Z_scope.

(** ** Values *)

Inductive number :=
| NaN
| Int (z : Z).

Inductive value :=
| Undefined
| Null
| Number (n : number).

Inductive Error :=
| TypeError (msg : string).

(** The completion of a call: a returned value or a thrown error. *)
Inductive Completion (A : Type) :=
| Normal (a : A)
| Throw (e : Error).
Arguments Normal {A} a.
Arguments Throw {A} e.

(** ToBoolean on the values above. *)
Definition truthy (v : value) : bool :=
  match v with
  | Number (Int z) => negb (z =? 0)
  | Number NaN => false
  | Undefined | Null => false
  end.

(** [a <= b], [a >= b] and [a > b] on numbers: false as soon as one side is NaN. *)
Definition num_le (a b : number) : bool :=
  match a, b with
  | Int x, Int y => x <=? y
  | _, _ => false
  end.

Definition num_ge (a b : number) : bool :=
  match a, b with
  | Int x, Int y => y <=? x
  | _, _ => false
  end.

Definition num_gt (a b : number) : bool :=
  match a, b with
  | Int x, Int y => y <? x
  | _, _ => false
  end.

(** ToNumber, then the arithmetic the calculator uses. *)
Definition ToNumber (v : value) : number :=
  match v with
  | Undefined => NaN
  | Null => Int 0
  | Number n => n
  end.

Definition num_sub (a b : number) : number :=
  match a, b with
  | Int x, Int y => Int (x - y)
  | _, _ => NaN
  end.

Definition num_mul (a b : number) : number :=
  match a, b with
  | Int x, Int y => Int (x * y)
  | _, _ => NaN
  end.

(** ** parseInt *)

Definition is_space (c : ascii) : bool :=
  let n := nat_of_ascii c in
  ((n =? 32) || (n =? 9) || (n =? 10) || (n =? 11) || (n =? 12) || (n =? 13))%nat.

Fixpoint skip_spaces (s : string) : string :=
  match s with
  | String c rest => if is_space c then skip_spaces rest else s
  | EmptyString => s
  end.

Definition digit_value (radix : Z) (c : ascii) : option Z :=
  let n := Z.of_nat (nat_of_ascii c) in
  let d :=
    if (48 <=? n) && (n <=? 57) then Some (n - 48)
    else if (97 <=? n) && (n <=? 122) then Some (n - 97 + 10)
    else if (65 <=? n) && (n <=? 90) then Some (n - 65 + 10)
    else None in
  match d with
  | Some v => if v <? radix then Some v else None
  | None => None
  end.

(** The longest prefix of digits of the radix, read left to right;
    [None] when there is no digit at all. *)
Fixpoint parse_digits (radix : Z) (acc : option Z) (s : string) : option Z :=
  match s with
  | String c rest =>
      match digit_value radix c with
      | Some d => parse_digits radix (Some (from_option id 0 acc * radix + d)) rest
      | None => acc
      end
  | EmptyString => acc
  end.

Definition strip_hex_prefix (s : string) : option string :=
  match s with
  | String "0" (String "x" rest) => Some rest
  | String "0" (String "X" rest) => Some rest
  | _ => None
  end.

(** [parseInt(s)] without a radix argument. *)
Definition parseInt (s : string) : number :=
  let s1 := skip_spaces s in
  let '(sign, s2) :=
    match s1 with
    | String "-" rest => (-1, rest)
    | String "+" rest => (1, rest)
    | _ => (1, s1)
    end in
  let r :=
    match strip_hex_prefix s2 with
    | Some rest => parse_digits 16 None rest
    | None => parse_digits 10 None s2
    end in
  match r with
  | Some n => Int (sign * n)
  | None => NaN
  end.

(** ** Object.entries on an object literal with string-valued properties

    Own keys come out with the array-index keys first, in ascending numeric
    order, then the other keys in the order they were written. *)

Definition Object := list (string * string).

Definition is_digit (c : ascii) : bool :=
  let n := nat_of_ascii c in ((48 <=? n) && (n <=? 57))%nat.

Fixpoint all_digits (s : string) : bool :=
  match s with
  | String c rest => is_digit c && all_digits rest
  | EmptyString => true
  end.

(** A key is an array index when it is the canonical decimal form of an
    integer below 2^32 - 1. *)
Definition array_index (k : string) : option Z :=
  match k with
  | EmptyString => None
  | String "0" EmptyString => Some 0
  | String "0" _ => None
  | _ =>
      if all_digits k then
        match parse_digits 10 None k with
        | Some n => if n <? 4294967295 then Some n else None
        | None => None
        end
      else None
  end.

Fixpoint insert_by_index (i : Z) (e : string * string)
    (l : list (Z * (string * string))) : list (Z * (string * string)) :=
  match l with
  | [] => [(i, e)]
  | (j, e') :: rest =>
      if i <? j then (i, e) :: l else (j, e') :: insert_by_index i e rest
  end.

Fixpoint split_keys (o : Object)
    : list (Z * (string * string)) * list (string * string) :=
  match o with
  | [] => ([], [])
  | e :: rest =>
      let '(idx, named) := split_keys rest in
      match array_index (fst e) with
      | Some i => (insert_by_index i e idx, named)
      | None => (idx, e :: named)
      end
  end.

Definition Object_entries (o : Object) : list (string * string) :=
  let '(idx, named) := split_keys o in (map snd idx ++ named)%list.

(** ToString on numbers. *)
Definition Number_toString (n : number) : string :=
  match n with
  | NaN => "NaN"
  | Int z => NilZero.string_of_int (Z.to_int z)
  end.

(** ** The document

    Elements live in a store in document order; the handle of an element is
    its position.  Only what the scripts read or write is kept. *)

Definition elem := nat.

(** What a script assigns to [innerHTML]. *)
Inductive Markup :=
| form_success.   (* the success block: icon, title and text *)

Record Node := mkNode {
  el_tag : string;                       (* lower-case tag name *)
  el_id : string;                        (* id attribute, empty when absent *)
  el_classList : list string;
  el_attributes : list (string * string);
  el_parent : option elem;               (* parentElement *)
  el_value : string;
  el_checked : bool;
  el_scrollHeight : Z;
  el_textContent : option string;        (* Some s once a script has written it *)
  el_innerHTML : option Markup;          (* Some html once a script has written it:
                                            the former descendants leave the document *)
  el_maxHeight : option string;          (* style.maxHeight *)
  el_background : option number          (* style.background: the track gradient of
                                            [update], kept as the area it is drawn
                                            for; its percentage is a double *)
}.

Definition set_classList (f : list string -> list string) (n : Node) : Node :=
  mkNode (el_tag n) (el_id n) (f (el_classList n)) (el_attributes n) (el_parent n)
    (el_value n) (el_checked n) (el_scrollHeight n) (el_textContent n)
    (el_innerHTML n) (el_maxHeight n) (el_background n).

Definition set_textContent (s : string) (n : Node) : Node :=
  mkNode (el_tag n) (el_id n) (el_classList n) (el_attributes n) (el_parent n)
    (el_value n) (el_checked n) (el_scrollHeight n) (Some s)
    (el_innerHTML n) (el_maxHeight n) (el_background n).

Definition set_innerHTML (s : Markup) (n : Node) : Node :=
  mkNode (el_tag n) (el_id n) (el_classList n) (el_attributes n) (el_parent n)
    (el_value n) (el_checked n) (el_scrollHeight n) (el_textContent n)
    (Some s) (el_maxHeight n) (el_background n).

Definition set_maxHeight (s : option string) (n : Node) : Node :=
  mkNode (el_tag n) (el_id n) (el_classList n) (el_attributes n) (el_parent n)
    (el_value n) (el_checked n) (el_scrollHeight n) (el_textContent n)
    (el_innerHTML n) s (el_background n).

Definition set_background (a : number) (n : Node) : Node :=
  mkNode (el_tag n) (el_id n) (el_classList n) (el_attributes n) (el_parent n)
    (el_value n) (el_checked n) (el_scrollHeight n) (el_textContent n)
    (el_innerHTML n) (el_maxHeight n) (Some a).

(** classList operations. *)
Definition contains (c : string) (l : list string) : bool :=
  existsb (String.eqb c) l.

Definition add (c : string) (l : list string) : list string :=
  if contains c l then l else (l ++ [c])%list.

Definition remove (c : string) (l : list string) : list string :=
  List.filter (fun x => negb (String.eqb c x)) l.

Definition toggle (c : string) (l : list string) : list string :=
  if contains c l then remove c l else (l ++ [c])%list.

Definition get_attribute (a : string) (n : Node) : option string :=
  snd <$> find (fun kv => String.eqb a (fst kv)) (el_attributes n).

(** The selectors the scripts use. *)
Inductive Selector :=
| ByClass (c : string)               (* .c *)
| ByAttr (a : string)                (* [a] *)
| ByTagAttrPrefix (t a p : string)   (* t[a^="p"] *)
| ByTagAttr (t a v : string)         (* t[a="v"] *)
| ByTagAttrChecked (t a v : string). (* t[a="v"]:checked *)

Definition matches (sel : Selector) (n : Node) : bool :=
  match sel with
  | ByClass c => contains c (el_classList n)
  | ByAttr a => bool_decide (is_Some (get_attribute a n))
  | ByTagAttrPrefix t a p =>
      String.eqb t (el_tag n) &&
      match get_attribute a n with
      | Some v => String.prefix p v
      | None => false
      end
  | ByTagAttr t a v =>
      String.eqb t (el_tag n) &&
      match get_attribute a n with
      | Some v' => String.eqb v v'
      | None => false
      end
  | ByTagAttrChecked t a v =>
      String.eqb t (el_tag n) &&
      match get_attribute a n with
      | Some v' => String.eqb v v'
      | None => false
      end && el_checked n
  end.

(** Proper ancestors of an element, nearest first. *)
Fixpoint ancestors (ns : list Node) (fuel : nat) (e : elem) : list elem :=
  match fuel with
  | O => []
  | S fuel' =>
      match ns !! e ≫= el_parent with
      | Some p => p :: ancestors ns fuel' p
      | None => []
      end
  end.

Definition descendant_of (ns : list Node) (root e : elem) : bool :=
  existsb (Nat.eqb root) (ancestors ns (length ns) e).

(** An element is in the document unless the content of one of its
    ancestors has been overwritten. *)
Definition connected (ns : list Node) (e : elem) : bool :=
  forallb
    (fun a => match ns !! a with
              | Some n => negb (bool_decide (is_Some (el_innerHTML n)))
              | None => true
              end)
    (ancestors ns (length ns) e).

(** The connected elements satisfying [p], in document order. *)
Definition select (ns : list Node) (p : elem -> Node -> bool) : list elem :=
  omap id (imap (fun i n => if connected ns i && p i n then Some i else None) ns).

Definition querySelectorAll (ns : list Node) (sel : Selector) : list elem :=
  select ns (fun _ n => matches sel n).

Definition querySelector (ns : list Node) (sel : Selector) : option elem :=
  head (querySelectorAll ns sel).

Definition getElementById (ns : list Node) (i : string) : option elem :=
  head (select ns (fun _ n => String.eqb i (el_id n))).

(** [root.querySelectorAll(sel)] and [root.querySelector(sel)]. *)
Definition querySelectorAll_in (ns : list Node) (root : elem) (sel : Selector)
    : list elem :=
  select ns (fun i n => descendant_of ns root i && matches sel n).

Definition querySelector_in (ns : list Node) (root : elem) (sel : Selector)
    : option elem :=
  head (querySelectorAll_in ns root sel).

(** [e.closest(sel)]: the element itself or its nearest ancestor that
    matches. *)
Definition closest (ns : list Node) (e : elem) (sel : Selector) : option elem :=
  head (List.filter (fun a => from_option (matches sel) false (ns !! a))
          (e :: ancestors ns (length ns) e)).

(** [el.classList.contains(c)] on the element behind a handle. *)
Definition has_class (ns : list Node) (e : elem) (c : string) : bool :=
  from_option (fun n => contains c (el_classList n)) false (ns !! e).

(** The entry list of [new FormData(form)]: the named controls under the
    form in document order, radio buttons and checkboxes only when checked.
    Values are strings (file inputs are outside the model). *)
Definition is_control (n : Node) : bool :=
  String.eqb (el_tag n) "input" || String.eqb (el_tag n) "textarea" ||
  String.eqb (el_tag n) "select".

Definition is_checkable (n : Node) : bool :=
  match get_attribute "type" n with
  | Some t => String.eqb t "radio" || String.eqb t "checkbox"
  | None => false
  end.

Definition FormData_entries (ns : list Node) (form : elem) : list (string * string) :=
  omap
    (fun e =>
       n ← ns !! e;
       name ← get_attribute "name" n;
       if String.eqb name "" then None
       else if is_checkable n && negb (el_checked n) then None
       else if bool_decide (is_Some (get_attribute "disabled" n)) then None
       else Some (name, el_value n))
    (select ns (fun i n => descendant_of ns form i && is_control n)).

(** [Object.fromEntries(entries)]: a later entry overwrites the value of
    an earlier one with the same key. *)
Fixpoint obj_set (k v : string) (o : Object) : Object :=
  match o with
  | [] => [(k, v)]
  | (k', v') :: rest =>
      if String.eqb k k' then (k, v) :: rest else (k', v') :: obj_set k v rest
  end.

Definition Object_fromEntries (entries : list (string * string)) : Object :=
  fold_left (fun o kv => obj_set (fst kv) (snd kv) o) entries [].

(** [o[key]] on such an object; [None] is [undefined]. *)
Definition obj_get (o : Object) (key : string) : option string :=
  snd <$> find (fun kv => String.eqb key (fst kv)) o.

(** ToBoolean on an optional string. *)
Definition truthy_string (v : option string) : bool :=
  match v with
  | Some s => negb (String.eqb s "")
  | None => false
  end.

(** ** The page: browser state and script state *)

Inductive Target :=
| Window
| Document
| Element (e : elem).

(** The function values the scripts register, named after the code they
    run, with the variables they capture. *)
Inductive Handler :=
| Header_onScroll
| Accordion_headerClick (item content : elem)
| Modal_openClick
| Modal_closeClick
| Modal_backdropClick
| Modal_escapeKey
| Modal_submit
| SmoothScroll_anchorClick (anchor : elem)
| MobileMenu_buttonClick (menuBtn nav : elem)
| MobileMenu_linkClick (menuBtn nav : elem)
| Calculator_update
| Calculator_updateOptionPrices.

Inductive Callback :=
| Modal_closeThenReload     (* close(), then setTimeout(reload, 300) *)
| Location_reload.

(** What the handlers read of the event they receive. *)
Record Event := mkEvent {
  ev_target : Target;
  ev_key : string
}.

Definition Target_eqb (a b : Target) : bool :=
  match a, b with
  | Window, Window => true
  | Document, Document => true
  | Element x, Element y => Nat.eqb x y
  | _, _ => false
  end.

Record Listener := mkListener {
  on_target : Target;
  on_type : string;
  on_handler : Handler
}.

Record World := mkWorld {
  nodes : list Node;
  listeners : list Listener;
  body_overflow : string;                (* document.body.style.overflow *)
  scrollY : Z;                           (* window.scrollY *)
  defaultPrevented : bool;               (* of the event being dispatched *)
  alerts : list string;
  console : list (string * list (string * string));
  timers : list (Callback * Z);
  observed : list elem                   (* targets of the IntersectionObserver *)
}.

Definition set_nodes (f : list Node -> list Node) (w : World) : World :=
  mkWorld (f (nodes w)) (listeners w) (body_overflow w) (scrollY w)
    (defaultPrevented w) (alerts w) (console w) (timers w) (observed w).

Definition set_listeners (f : list Listener -> list Listener) (w : World) : World :=
  mkWorld (nodes w) (f (listeners w)) (body_overflow w) (scrollY w)
    (defaultPrevented w) (alerts w) (console w) (timers w) (observed w).

Definition set_body_overflow (s : string) (w : World) : World :=
  mkWorld (nodes w) (listeners w) s (scrollY w)
    (defaultPrevented w) (alerts w) (console w) (timers w) (observed w).

Definition set_defaultPrevented (b : bool) (w : World) : World :=
  mkWorld (nodes w) (listeners w) (body_overflow w) (scrollY w)
    b (alerts w) (console w) (timers w) (observed w).

Definition set_alerts (f : list string -> list string) (w : World) : World :=
  mkWorld (nodes w) (listeners w) (body_overflow w) (scrollY w)
    (defaultPrevented w) (f (alerts w)) (console w) (timers w) (observed w).

Definition set_console
    (f : list (string * list (string * string)) -> list (string * list (string * string)))
    (w : World) : World :=
  mkWorld (nodes w) (listeners w) (body_overflow w) (scrollY w)
    (defaultPrevented w) (alerts w) (f (console w)) (timers w) (observed w).

Definition set_timers (f : list (Callback * Z) -> list (Callback * Z)) (w : World)
    : World :=
  mkWorld (nodes w) (listeners w) (body_overflow w) (scrollY w)
    (defaultPrevented w) (alerts w) (console w) (f (timers w)) (observed w).

Definition set_observed (f : list elem -> list elem) (w : World) : World :=
  mkWorld (nodes w) (listeners w) (body_overflow w) (scrollY w)
    (defaultPrevented w) (alerts w) (console w) (timers w) (f (observed w)).

(** The fields of the module objects that [init] fills in. *)
Record HeaderFields := mkHeaderFields {
  header : option elem
}.

Record ModalFields := mkModalFields {
  modal : option elem;
  form : option elem
}.

Record CalculatorFields := mkCalculatorFields {
  slider : option elem;
  areaValue : option elem;
  areaHint : option elem;
  options : list elem;
  resultSummary : option elem;
  resultPrice : option elem;
  resultMonthly : option elem;
  savingElements : list elem
}.

Record Page := mkPage {
  world : World;
  this_Header : HeaderFields;
  this_Modal : ModalFields;
  this_Calculator : CalculatorFields
}.

Definition set_world (f : World -> World) (p : Page) : Page :=
  mkPage (f (world p)) (this_Header p) (this_Modal p) (this_Calculator p).

Definition set_this_Header (h : HeaderFields) (p : Page) : Page :=
  mkPage (world p) h (this_Modal p) (this_Calculator p).

Definition set_this_Modal (m : ModalFields) (p : Page) : Page :=
  mkPage (world p) (this_Header p) m (this_Calculator p).

Definition set_this_Calculator (c : CalculatorFields) (p : Page) : Page :=
  mkPage (world p) (this_Header p) (this_Modal p) c.

(** ** Script steps: state passing with exceptions

    A step takes the page and gives back its completion and the page it
    leaves; what was written before a throw stays written. *)

Definition M (A : Type) : Type := Page -> Completion A * Page.

Definition ret {A} (a : A) : M A := fun p => (Normal a, p).

Definition bind {A B} (m : M A) (k : A -> M B) : M B :=
  fun p =>
    match m p with
    | (Normal a, p') => k a p'
    | (Throw e, p') => (Throw e, p')
    end.

Definition throw {A} (e : Error) : M A := fun p => (Throw e, p).

Declare Scope js_scope.
Delimit Scope js_scope with js.
Notation "'let*' x := m 'in' k" := (bind m (fun x => k))
  (at level 10, x name, m at level 100, k at level 200) : js_scope.
Notation "m ;; k" := (bind m (fun _ => k))
  (at level 100, k at level 200, right associativity) : js_scope.

Local Open Scope js_scope.

Definition get : M Page := fun p => (Normal p, p).

Definition update_world (f : World -> World) : M unit :=
  fun p => (Normal tt, set_world f p).

Definition update_page (f : Page -> Page) : M unit :=
  fun p => (Normal tt, f p).

(** Reading the document. *)
Definition document {A} (q : list Node -> A) : M A :=
  fun p => (Normal (q (nodes (world p))), p).

(** Using a reference that may be [null]: property access on [null]
    throws a TypeError. *)
Definition deref (what : string) (r : option elem) : M elem :=
  match r with
  | Some e => ret e
  | None => throw (TypeError (what +:+ " is null"))
  end.

Definition update_node (e : elem) (f : Node -> Node) : M unit :=
  update_world (set_nodes (alter f e)).

Definition addEventListener (t : Target) (type : string) (h : Handler) : M unit :=
  update_world (set_listeners (fun l => (l ++ [mkListener t type h])%list)).

Definition setTimeout (c : Callback) (delay : Z) : M unit :=
  update_world (set_timers (fun l => (l ++ [(c, delay)])%list)).

Definition alert (msg : string) : M unit :=
  update_world (set_alerts (fun l => (l ++ [msg])%list)).

Definition console_log (msg : string) (data : list (string * string)) : M unit :=
  update_world (set_console (fun l => (l ++ [(msg, data)])%list)).

Fixpoint forEach {A} (l : list A) (f : A -> M unit) : M unit :=
  match l with
  | [] => ret tt
  | x :: rest => f x ;; forEach rest f
  end.

(** ** Calculator: data *)

Inductive Zone := zone1 | zone2 | zone3.

Record ZoneRange := { min : Z; max : Z }.

Record PriceEntry := { single : Z; weekly : Z }.

Module Calculator.

Local Open Scope js_scope.

Definition zones (z : Zone) : ZoneRange :=
  match z with
  | zone1 => {| min := 50; max := 90 |}
  | zone2 => {| min := 91; max := 150 |}
  | zone3 => {| min := 151; max := 250 |}
  end.

Definition prices (z : Zone) : PriceEntry :=
  match z with
  | zone1 => {| single := 9900; weekly := 8400 |}
  | zone2 => {| single := 14900; weekly := 12700 |}
  | zone3 => {| single := 21900; weekly := 18600 |}
  end.

Definition areaHints : Object :=
  [ ("50", "1-2 комнатная • Приедет 1 клинер");
    ("75", "2-комнатная • Приедет 1 клинер");
    ("90", "2-3 комнатная • Приедет 1 клинер");
    ("100", "3-комнатная • Приедут 2 клинера");
    ("130", "3-4 комнатная • Приедут 2 клинера");
    ("150", "4-комнатная • Приедут 2 клинера");
    ("170", "Большая квартира • Приедут 3 клинера");
    ("200", "Пентхаус • Приедут 3 клинера") ].

Definition frequencyLabels : Object :=
  [ ("single", "разовая");
    ("weekly", "регулярно раз в неделю") ].

(** [entry[frequency]]: a price entry has the two own properties [single]
    and [weekly]; any other key reads [undefined]. *)
Definition entry_get (e : PriceEntry) (frequency : string) : value :=
  if String.eqb frequency "single" then Number (Int (single e))
  else if String.eqb frequency "weekly" then Number (Int (weekly e))
  else Undefined.

(** ** Calculator: pricing functions *)

Definition getZone (area : number) : Zone :=
  if num_le area (Int 90) then zone1
  else if num_le area (Int 150) then zone2
  else zone3.

Definition getPrice (area : number) (frequency : string) : value :=
  let zone := getZone area in
  entry_get (prices zone) frequency.

Definition getMonthlyPrice (price : value) (frequency : string) : value :=
  if negb (truthy price) then Null
  else if String.eqb frequency "weekly" then Number (num_mul (ToNumber price) (Int 4))
  else price.

Definition getSavings (area : number) (frequency : string) : number :=
  if String.eqb frequency "single" then Int 0
  else
    let singlePrice := getPrice area "single" in
    let currentPrice := getPrice area frequency in
    if negb (truthy singlePrice) || negb (truthy currentPrice) then Int 0
    else num_sub (ToNumber singlePrice) (ToNumber currentPrice).

(** The loop [for (i = hints.length - 1; i >= 0; i--)], with [n = i + 1];
    [None] when the loop falls through. *)
Fixpoint getAreaHint_loop (hints : list (string * string)) (area : number)
    (n : nat) : option string :=
  match n with
  | O => None
  | S i =>
      match hints !! i with
      | Some (k, label) =>
          if num_ge area (parseInt k) then Some label
          else getAreaHint_loop hints area i
      | None => None
      end
  end.

Definition getAreaHint (area : number) : Completion string :=
  let hints := Object_entries areaHints in
  match getAreaHint_loop hints area (length hints) with
  | Some label => Normal label
  | None =>
      match hints !! 0%nat with
      | Some (_, label) => Normal label
      | None => Throw (TypeError "hints[0] is undefined")
      end
  end.

Section WithFormatter.

(** [new Intl.NumberFormat('ru-RU').format]: the platform's formatter,
    a parameter of the embedding. *)
Variable NumberFormat_ru : value -> string.

Definition formatPrice (price : value) : string :=
  if negb (truthy price) then "По запросу"
  else NumberFormat_ru price +:+ "₽".

(** *** Calculator: the page bindings *)

Definition init_fields : M unit :=
  let* slider := document (fun ns => getElementById ns "area-slider") in
  let* areaValue := document (fun ns => getElementById ns "area-value") in
  let* areaHint := document (fun ns => getElementById ns "area-hint") in
  let* options :=
    document (fun ns => querySelectorAll ns (ByTagAttr "input" "name" "frequency")) in
  let* resultSummary := document (fun ns => getElementById ns "result-summary") in
  let* resultPrice := document (fun ns => getElementById ns "result-price") in
  let* resultMonthly := document (fun ns => getElementById ns "result-monthly") in
  let* savingElements :=
    document (fun ns => querySelectorAll ns (ByClass "calculator__option-saving")) in
  update_page
    (set_this_Calculator
       (mkCalculatorFields slider areaValue areaHint options resultSummary
          resultPrice resultMonthly savingElements)).

(** [parseInt(this.slider.value)] *)
Definition slider_area : M number :=
  let* p := get in
  let* s := deref "this.slider" (slider (this_Calculator p)) in
  let* v := document (fun ns => from_option el_value "" (ns !! s)) in
  ret (parseInt v).

(** A template literal prints [undefined] for a missing label. *)
Definition label_text (l : option string) : string :=
  from_option id "undefined" l.

Definition update : M unit :=
  let* area := slider_area in
  let* checked :=
    document (fun ns =>
      querySelector ns (ByTagAttrChecked "input" "name" "frequency")) in
  let* radio := deref "document.querySelector(...)" checked in
  let* frequency := document (fun ns => from_option el_value "" (ns !! radio)) in
  let* p := get in
  (* area display *)
  let* av := deref "this.areaValue" (areaValue (this_Calculator p)) in
  update_node av (set_textContent (Number_toString area)) ;;
  let* ah := deref "this.areaHint" (areaHint (this_Calculator p)) in
  let* hint := (fun p => (getAreaHint area, p)) in
  update_node ah (set_textContent hint) ;;
  (* slider track *)
  let* s := deref "this.slider" (slider (this_Calculator p)) in
  update_node s (set_background area) ;;
  (* prices *)
  let price := getPrice area frequency in
  let monthlyPrice := getMonthlyPrice price frequency in
  (* result *)
  let* rs := deref "this.resultSummary" (resultSummary (this_Calculator p)) in
  update_node rs
    (set_textContent
       (Number_toString area +:+ " кв.м, " +:+
        label_text (obj_get frequencyLabels frequency))) ;;
  let* rp := deref "this.resultPrice" (resultPrice (this_Calculator p)) in
  update_node rp (set_textContent (formatPrice price)) ;;
  let* rm := deref "this.resultMonthly" (resultMonthly (this_Calculator p)) in
  if String.eqb frequency "single" then
    update_node rm (set_textContent "")
  else if truthy price then
    update_node rm (set_textContent (formatPrice monthlyPrice +:+ " раз в месяц"))
  else
    update_node rm (set_textContent "Свяжитесь с нами для расчета").

Definition when_present (r : option elem) (f : elem -> M unit) : M unit :=
  match r with
  | Some e => f e
  | None => ret tt
  end.

Definition updateOptionPrices : M unit :=
  let* area := slider_area in
  (* single option *)
  let* singlePriceEl := document (fun ns => getElementById ns "price-single") in
  let singlePrice := getPrice area "single" in
  when_present singlePriceEl (fun e =>
    update_node e (set_textContent (formatPrice singlePrice))) ;;
  (* weekly option *)
  let* weeklyPriceEl := document (fun ns => getElementById ns "price-weekly") in
  let* weeklyMonthlyEl := document (fun ns => getElementById ns "monthly-weekly") in
  let* weeklySavingEl := document (fun ns => getElementById ns "saving-weekly") in
  let weeklyPrice := getPrice area "weekly" in
  when_present weeklyPriceEl (fun e =>
    update_node e (set_textContent (formatPrice weeklyPrice))) ;;
  (if truthy weeklyPrice then
     when_present weeklyMonthlyEl (fun e =>
       update_node e
         (set_textContent
            ("(" +:+ formatPrice (Number (num_mul (ToNumber weeklyPrice) (Int 4)))
             +:+ " раз в месяц)")))
   else ret tt) ;;
  when_present weeklySavingEl (fun e =>
    let saving := getSavings area "weekly" in
    update_node e
      (set_textContent
         (if num_gt saving (Int 0)
          then "💰 Экономия " +:+ formatPrice (Number saving) +:+ " на каждой"
          else ""))).

Definition init : M unit :=
  init_fields ;;
  let* p := get in
  match slider (this_Calculator p) with
  | None => ret tt
  | Some s =>
      (* event listeners *)
      addEventListener (Element s) "input" Calculator_update ;;
      forEach (options (this_Calculator p)) (fun option =>
        addEventListener (Element option) "change" Calculator_update) ;;
      (* option prices follow the slider *)
      addEventListener (Element s) "input" Calculator_updateOptionPrices ;;
      (* initial update *)
      update ;;
      updateOptionPrices
  end.

End WithFormatter.

End Calculator.

(** ** Page script: header, accordion, modal, smooth scroll, animations,
    mobile menu *)

Module Header.
Local Open Scope js_scope.

Definition scrollThreshold : Z := 50.

Definition onScroll : M unit :=
  let* p := get in
  if scrollThreshold <? scrollY (world p) then
    let* h := deref "this.header" (header (this_Header p)) in
    update_node h (set_classList (add "header--scrolled"))
  else
    let* h := deref "this.header" (header (this_Header p)) in
    update_node h (set_classList (remove "header--scrolled")).

Definition init : M unit :=
  let* h := document (fun ns => querySelector ns (ByClass "header")) in
  update_page (set_this_Header (mkHeaderFields h)) ;;
  match h with
  | None => ret tt
  | Some _ =>
      addEventListener Window "scroll" Header_onScroll ;;
      onScroll
  end.

End Header.

Module Accordion.
Local Open Scope js_scope.

(** [content.style.maxHeight = content.scrollHeight + 'px'] *)
Definition expand (content : elem) : M unit :=
  let* h := document (fun ns => from_option el_scrollHeight 0 (ns !! content)) in
  update_node content (set_maxHeight (Some (Number_toString (Int h) +:+ "px"))).

Definition init : M unit :=
  let* accordionItems :=
    document (fun ns => querySelectorAll ns (ByClass "accordion__item")) in
  forEach accordionItems (fun item =>
    let* header :=
      document (fun ns => querySelector_in ns item (ByClass "accordion__header")) in
    let* content :=
      document (fun ns => querySelector_in ns item (ByClass "accordion__content")) in
    match header, content with
    | Some h, Some c =>
        addEventListener (Element h) "click" (Accordion_headerClick item c)
    | _, _ => ret tt
    end) ;;
  (* open the first item by default *)
  let* firstItem :=
    document (fun ns => querySelector ns (ByClass "accordion__item")) in
  match firstItem with
  | Some item =>
      update_node item (set_classList (add "active")) ;;
      let* content :=
        document (fun ns => querySelector_in ns item (ByClass "accordion__content")) in
      match content with
      | Some c => expand c
      | None => ret tt
      end
  | None => ret tt
  end.

(** The click listener of an item's header.  It runs on a click, hence
    with the header, and the item around it, in the document. *)
Definition onHeaderClick (item content : elem) : M unit :=
  let* isActive := document (fun ns => has_class ns item "active") in
  (* close all items in the same accordion *)
  let* parent := document (fun ns => closest ns item (ByClass "accordion")) in
  match parent with
  | Some par =>
      let* items :=
        document (fun ns => querySelectorAll_in ns par (ByClass "accordion__item")) in
      forEach items (fun i =>
        update_node i (set_classList (remove "active")) ;;
        let* c :=
          document (fun ns => querySelector_in ns i (ByClass "accordion__content")) in
        match c with
        | Some c => update_node c (set_maxHeight None)
        | None => ret tt
        end)
  | None => ret tt
  end ;;
  (* toggle the current item *)
  if negb isActive then
    update_node item (set_classList (add "active")) ;;
    expand content
  else ret tt.

End Accordion.

Module Modal.
Local Open Scope js_scope.

Definition open : M unit :=
  let* p := get in
  match modal (this_Modal p) with
  | None => ret tt
  | Some m =>
      update_node m (set_classList (add "active")) ;;
      update_world (set_body_overflow "hidden")
  end.

Definition close : M unit :=
  let* p := get in
  match modal (this_Modal p) with
  | None => ret tt
  | Some m =>
      update_node m (set_classList (remove "active")) ;;
      update_world (set_body_overflow "")
  end.

Definition showSuccess : M unit :=
  let* p := get in
  let* f := deref "this.form" (form (this_Modal p)) in
  let* parent := document (fun ns => ns !! f ≫= el_parent) in
  let* formContent := deref "formContent" parent in
  update_node formContent (set_innerHTML form_success) ;;
  (* close the modal after a delay *)
  setTimeout Modal_closeThenReload 2500.

(** [new FormData(this.form)]: the constructor rejects what is not a form
    element. *)
Definition new_FormData (f : option elem) : M (list (string * string)) :=
  let* ns := document id in
  match f with
  | Some e =>
      if from_option (fun n => String.eqb (el_tag n) "form") false (ns !! e)
      then ret (FormData_entries ns e)
      else throw (TypeError "FormData: parameter 1 is not a form element")
  | None => throw (TypeError "FormData: parameter 1 is not a form element")
  end.

Definition handleSubmit : M unit :=
  update_world (set_defaultPrevented true) ;;
  let* p := get in
  let* formData := new_FormData (form (this_Modal p)) in
  let data := Object_fromEntries formData in
  (* validate *)
  if negb (truthy_string (obj_get data "name")) ||
     negb (truthy_string (obj_get data "phone"))
  then alert "Пожалуйста, заполните все поля"
  else
    (* success state *)
    showSuccess ;;
    console_log "Form submitted:" data.

Definition init : M unit :=
  let* m := document (fun ns => getElementById ns "modal") in
  let* f := document (fun ns => getElementById ns "lead-form") in
  update_page (set_this_Modal (mkModalFields m f)) ;;
  match m with
  | None => ret tt
  | Some m =>
      (* open triggers *)
      let* openers := document (fun ns => querySelectorAll ns (ByAttr "data-modal-open")) in
      forEach openers (fun trigger =>
        addEventListener (Element trigger) "click" Modal_openClick) ;;
      (* close triggers *)
      let* closers := document (fun ns => querySelectorAll ns (ByAttr "data-modal-close")) in
      forEach closers (fun trigger =>
        addEventListener (Element trigger) "click" Modal_closeClick) ;;
      (* backdrop click *)
      addEventListener (Element m) "click" Modal_backdropClick ;;
      (* Escape key *)
      addEventListener Document "keydown" Modal_escapeKey ;;
      (* form submission *)
      match f with
      | Some f => addEventListener (Element f) "submit" Modal_submit
      | None => ret tt
      end
  end.

(** The listeners [init] registers. *)
Definition onOpenClick : M unit :=
  update_world (set_defaultPrevented true) ;;
  open.

Definition onCloseClick : M unit := close.

Definition onBackdropClick (e : Event) : M unit :=
  let* p := get in
  if match modal (this_Modal p) with
     | Some m => Target_eqb (ev_target e) (Element m)
     | None => false
     end
  then close
  else ret tt.

Definition onKeydown (e : Event) : M unit :=
  if String.eqb (ev_key e) "Escape" then
    let* p := get in
    let* m := deref "this.modal" (modal (this_Modal p)) in
    let* active := document (fun ns => has_class ns m "active") in
    if active then close else ret tt
  else ret tt.

(** The timers of [showSuccess]; the result tells whether the callback
    called [location.reload()]. *)
Definition run_callback (c : Callback) : M bool :=
  match c with
  | Modal_closeThenReload =>
      close ;;
      (* reset the form after closing *)
      setTimeout Location_reload 300 ;;
      ret false
  | Location_reload => ret true
  end.

(** Whether the modal is shown. *)
Definition is_open (p : Page) : bool :=
  match modal (this_Modal p) with
  | Some m =>
      from_option (fun n => contains "active" (el_classList n)) false
        (nodes (world p) !! m)
  | None => false
  end.

End Modal.

Module SmoothScroll.
Local Open Scope js_scope.

Definition init : M unit :=
  let* anchors := document (fun ns => querySelectorAll ns (ByTagAttrPrefix "a" "href" "#")) in
  forEach anchors (fun anchor =>
    addEventListener (Element anchor) "click" (SmoothScroll_anchorClick anchor)).

End SmoothScroll.

Module Animations.
Local Open Scope js_scope.

Definition observe (el : elem) : M unit :=
  update_world (set_observed (fun l => (l ++ [el])%list)).

Definition init : M unit :=
  let* elements := document (fun ns => querySelectorAll ns (ByClass "fade-in")) in
  if (length elements =? 0)%nat then ret tt
  else forEach elements observe.

Definition unobserve (el : elem) : M unit :=
  update_world (set_observed (List.filter (fun x => negb (Nat.eqb x el)))).

(** The observer's callback on a batch of entries, each a target with its
    [isIntersecting] flag. *)
Definition onIntersect (entries : list (elem * bool)) : M unit :=
  forEach entries (fun entry =>
    if snd entry then
      update_node (fst entry) (set_classList (add "visible")) ;;
      unobserve (fst entry)
    else ret tt).

End Animations.

Module MobileMenu.
Local Open Scope js_scope.

Definition init : M unit :=
  let* menuBtn := document (fun ns => querySelector ns (ByClass "header__menu-btn")) in
  let* nav := document (fun ns => querySelector ns (ByClass "header__nav")) in
  let* nav_ := deref "nav" nav in
  let* links :=
    document (fun ns => querySelectorAll_in ns nav_ (ByClass "header__nav-link")) in
  match menuBtn, nav with
  | Some b, Some n =>
      addEventListener (Element b) "click" (MobileMenu_buttonClick b n) ;;
      (* close the menu when a link is clicked *)
      forEach links (fun link =>
        addEventListener (Element link) "click" (MobileMenu_linkClick b n))
  | _, _ => ret tt
  end.

Definition onButtonClick (menuBtn nav : elem) : M unit :=
  update_node nav (set_classList (toggle "active")) ;;
  update_node menuBtn (set_classList (toggle "active")) ;;
  let* active := document (fun ns => has_class ns nav "active") in
  update_world (set_body_overflow (if active then "hidden" else "")).

Definition onLinkClick (menuBtn nav : elem) : M unit :=
  update_node nav (set_classList (remove "active")) ;;
  update_node menuBtn (set_classList (remove "active")) ;;
  update_world (set_body_overflow "").

End MobileMenu.

(** The initialisers, as the page script names them. *)
Inductive PageModule :=
| mod_Header
| mod_Accordion
| mod_Modal
| mod_SmoothScroll
| mod_Animations
| mod_MobileMenu.

Definition module_init (m : PageModule) : M unit :=
  match m with
  | mod_Header => Header.init
  | mod_Accordion => Accordion.init
  | mod_Modal => Modal.init
  | mod_SmoothScroll => SmoothScroll.init
  | mod_Animations => Animations.init
  | mod_MobileMenu => MobileMenu.init
  end.

(** The markup a module looks for first is missing from the document. *)
Definition expected_markup_absent (m : PageModule) (ns : list Node) : Prop :=
  match m with
  | mod_Header => querySelector ns (ByClass "header") = None
  | mod_Accordion => querySelectorAll ns (ByClass "accordion__item") = []
  | mod_Modal => getElementById ns "modal" = None
  | mod_SmoothScroll => querySelectorAll ns (ByTagAttrPrefix "a" "href" "#") = []
  | mod_Animations => querySelectorAll ns (ByClass "fade-in") = []
  | mod_MobileMenu => querySelector ns (ByClass "header__nav") = None
  end.

(** The [DOMContentLoaded] listener of the page script. *)
Definition DOMContentLoaded : M unit :=
  (Header.init ;;
   Accordion.init ;;
   Modal.init ;;
   SmoothScroll.init ;;
   Animations.init ;;
   MobileMenu.init)%js.

(** ** The hint table with its keys read as numbers *)

Definition hint_table : list (Z * string) :=
  omap
    (fun kv => match parseInt (fst kv) with
               | Int k => Some (k, snd kv)
               | NaN => None
               end)
    Calculator.areaHints.

(** ** A model of the platform's ru-RU number format

    Digits in groups of three separated by a no-break space (U+00A0), a
    leading minus sign for negative numbers.  It stands for
    [Intl.NumberFormat] where a concrete formatter is wanted. *)

Definition nbsp : string :=
  String (ascii_of_nat 194) (String (ascii_of_nat 160) EmptyString).

Definition pad3 (n : Z) : string :=
  Number_toString (Int (n / 100)) +:+
  Number_toString (Int (n / 10 mod 10)) +:+
  Number_toString (Int (n mod 10)).

Fixpoint group_thousands (fuel : nat) (n : Z) : string :=
  match fuel with
  | O => Number_toString (Int n)
  | S fuel' =>
      if n <? 1000 then Number_toString (Int n)
      else group_thousands fuel' (n / 1000) +:+ nbsp +:+ pad3 (n mod 1000)
  end.

Definition ru_format (v : value) : string :=
  match ToNumber v with
  | NaN => "не число"
  | Int z =>
      (if z <? 0 then "-" else "") +:+
      group_thousands (Z.to_nat (Z.log2 (Z.abs z))) (Z.abs z)
  end.

(** ** Sample pages *)

Definition element (tag ident : string) (classes : list string)
    (attrs : list (string * string)) (parent : option elem) (val : string)
    (chk : bool) : Node :=
  mkNode tag ident classes attrs parent val chk 0 None None None None.

Definition empty_world (ns : list Node) : World :=
  mkWorld ns [] "" 0 false [] [] [] [].

Definition fresh_page (ns : list Node) : Page :=
  mkPage (empty_world ns) (mkHeaderFields None) (mkModalFields None None)
    (mkCalculatorFields None None None [] None None None []).

(** A landing page with a header, a menu button and the lead form in its
    modal, but neither a navigation panel nor a calculator. *)
Definition landing_nodes : list Node :=
  [ element "header" "" ["header"] [] None "" false;
    element "button" "" ["header__menu-btn"] [] (Some 0%nat) "" false;
    element "a" "" ["btn"] [("href", "#"); ("data-modal-open", "")]
      (Some 0%nat) "" false;
    element "div" "modal" ["modal"] [] None "" false;
    element "div" "" ["modal__content"] [] (Some 3%nat) "" false;
    element "form" "lead-form" ["form"] [] (Some 4%nat) "" false;
    element "input" "" [] [("type", "text"); ("name", "name")]
      (Some 5%nat) "Анна" false;
    element "input" "" [] [("type", "tel"); ("name", "phone")]
      (Some 5%nat) "" false;
    element "button" "" [] [("type", "submit")] (Some 5%nat) "" false ].

Definition landing_page : Page := fresh_page landing_nodes.

(** The same page once the modal module is initialised and the modal
    opened: the state in which the visitor submits the form. *)
Definition landing_page_modal_open : Page :=
  snd (Modal.open (snd (Modal.init landing_page))).

(** The open modal with the phone field holding [phone]. *)
Definition landing_page_with_phone (phone : string) : Page :=
  set_world
    (set_nodes
       (<[7%nat := element "input" "" [] [("type", "tel"); ("name", "phone")]
                     (Some 5%nat) phone false]>))
    landing_page_modal_open.

Definition landing_page_filled : Page :=
  landing_page_with_phone "+7 900 000-00-00".

(** A page that has the calculator: slider at 100, weekly selected. *)
Definition calculator_nodes : list Node :=
  [ element "input" "area-slider" [] [("type", "range")] None "100" false;
    element "span" "area-value" [] [] None "" false;
    element "span" "area-hint" [] [] None "" false;
    element "input" "" [] [("type", "radio"); ("name", "frequency")]
      None "single" false;
    element "input" "" [] [("type", "radio"); ("name", "frequency")]
      None "weekly" true;
    element "div" "result-summary" [] [] None "" false;
    element "div" "result-price" [] [] None "" false;
    element "div" "result-monthly" [] [] None "" false;
    element "span" "price-single" [] [] None "" false;
    element "span" "price-weekly" [] [] None "" false;
    element "span" "monthly-weekly" [] [] None "" false;
    element "span" "saving-weekly" ["calculator__option-saving"] [] None "" false ].

Definition calculator_page : Page := fresh_page calculator_nodes.

(** A page with every kind of markup the page script looks for: header
    with menu button and navigation panel, an accordion of two items, a
    third item outside any accordion, the modal with a close button, and
    two elements that fade in. *)
Definition panel (parent : elem) (height : Z) : Node :=
  mkNode "div" "" ["accordion__content"] [] (Some parent) "" false height
    None None None None.

Definition site_nodes : list Node :=
  [ element "header" "" ["header"] [] None "" false;
    element "button" "" ["header__menu-btn"] [] (Some 0%nat) "" false;
    element "nav" "" ["header__nav"] [] (Some 0%nat) "" false;
    element "a" "" ["header__nav-link"] [("href", "#faq")] (Some 2%nat) "" false;
    element "a" "" ["header__nav-link"] [("href", "#"); ("data-modal-open", "")]
      (Some 2%nat) "" false;
    element "div" "faq" ["accordion"] [] None "" false;
    element "div" "" ["accordion__item"] [] (Some 5%nat) "" false;
    element "div" "" ["accordion__header"] [] (Some 6%nat) "" false;
    panel 6%nat 120;
    element "div" "" ["accordion__item"] [] (Some 5%nat) "" false;
    element "div" "" ["accordion__header"] [] (Some 9%nat) "" false;
    panel 9%nat 80;
    element "div" "" ["accordion__item"; "fade-in"] [] None "" false;
    element "div" "" ["accordion__header"] [] (Some 12%nat) "" false;
    panel 12%nat 40;
    element "div" "modal" ["modal"] [] None "" false;
    element "button" "" [] [("data-modal-close", "")] (Some 15%nat) "" false;
    element "section" "" ["fade-in"] [] None "" false ].

Definition site_page : Page := fresh_page site_nodes.

(** The same page once the page script has run. *)
Definition site_loaded : Page := snd (DOMContentLoaded site_page).

(** The loaded page with the mobile menu opened by its button. *)
Definition site_menu_open : Page :=
  snd (MobileMenu.onButtonClick 1%nat 2%nat site_loaded).


(** The calculator markup with no frequency selected. *)
Definition calculator_unchecked_page : Page :=
  fresh_page
    (<[4%nat := element "input" "" [] [("type", "radio"); ("name", "frequency")]
                  None "weekly" false]> calculator_nodes).

(** What a form hands over for a field: the value of [data[key]]. *)
Definition submitted (ns : list Node) (form : elem) (key : string) : option string :=
  obj_get (Object_fromEntries (FormData_entries ns form)) key.

(** A field is blank when the form has no value for it or an empty one. *)
Definition blank (v : option string) : Prop := v = None \/ v = Some "".


(** ** Auxiliary notions for the properties of the page scripts *)

(** The page with its element store replaced. *)
Definition with_nodes (ns : list Node) (p : Page) : Page :=
  set_world (set_nodes (fun _ => ns)) p.

(** One round of the closing loop of [Accordion.onHeaderClick] on the
    element store. *)
Definition collapse_step (ns : list Node) (i : elem) : list Node :=
  let ns1 := alter (set_classList (remove "active")) i ns in
  match querySelector_in ns1 i (ByClass "accordion__content") with
  | Some c => alter (set_maxHeight None) c ns1
  | None => ns1
  end.

(** The page with its list of listeners replaced. *)
Definition with_listeners (ls : list Listener) (p : Page) : Page :=
  set_world (set_listeners (fun _ => ls)) p.

(** What the scripts read of an element: everything but the text, the
    maximal height and the background they write. *)
Definition structure (n : Node) :=
  (el_tag n, el_id n, el_classList n, el_attributes n, el_parent n,
   el_value n, el_checked n, el_innerHTML n).

(** [p'] differs from [p] at most in the texts, heights and backgrounds
    of its elements. *)
Definition same_inputs (p p' : Page) : Prop :=
  map structure (nodes (world p')) = map structure (nodes (world p)) /\
  listeners (world p') = listeners (world p) /\
  body_overflow (world p') = body_overflow (world p) /\
  this_Calculator p' = this_Calculator p.

(** A step that changes nothing that the scripts read, however it
    completes. *)
Definition keeps_inputs {A} (m : M A) : Prop :=
  forall p, same_inputs p (snd (m p)).



(** The page scrolled to offset [y]. *)
Definition scrolled_to (y : Z) (p : Page) : Page :=
  set_world
    (fun w => mkWorld (nodes w) (listeners w) (body_overflow w) y
                (defaultPrevented w) (alerts w) (console w) (timers w) (observed w))
    p.

(** * Properties *)

Import Calculator.

(** [Object.entries] leaves the hint table in the order it is written:
    its keys are array indices already in ascending order. *)
Lemma areaHints_entries : Object_entries areaHints = areaHints.
Proof. vm_compute. reflexivity. Qed.

Lemma getZone_cases (area : Z) :
  getZone (Int area) =
    if area <=? 90 then zone1 else if area <=? 150 then zone2 else zone3.
Proof. reflexivity. Qed.

Ltac split_In H :=
  repeat (destruct H as [H|H]; [inversion H; subst; clear H|]); try contradiction.

Ltac decide_leb :=
  repeat match goal with
         | |- context [?a <=? ?b] => destruct (Z.leb_spec a b)
         end; try reflexivity; try lia.

(** C1: on the supported ranges, [getZone] maps [50,90] to zone1,
    [91,150] to zone2 and [151,250] to zone3; these are the ranges the
    [zones] table records. *)
Theorem getZone_supported_ranges (area : Z) :
  (50 <= area <= 90 -> getZone (Int area) = zone1) /\
  (91 <= area <= 150 -> getZone (Int area) = zone2) /\
  (151 <= area <= 250 -> getZone (Int area) = zone3) /\
  (forall z, min (zones z) <= area <= max (zones z) -> getZone (Int area) = z).
Proof.
  rewrite getZone_cases.
  split; [|split; [|split]]; [intros H | intros H | intros H | intros [] H];
    cbn [zones min max] in H; decide_leb.
Qed.

Lemma getZone_supported_ranges_witness :
  (50 <= 50 <= 90 /\ getZone (Int 50) = zone1) /\
  (91 <= 120 <= 150 /\ getZone (Int 120) = zone2) /\
  (151 <= 250 <= 250 /\ getZone (Int 250) = zone3).
Proof.
  split; [ | split ]; (split; [ lia | ]).
  - apply (proj1 (getZone_supported_ranges 50)); lia.
  - apply (proj1 (proj2 (getZone_supported_ranges 120))); lia.
  - apply (proj1 (proj2 (proj2 (getZone_supported_ranges 250)))); lia.
Defined.

Lemma hint_table_eq :
  hint_table =
    [ (50, "1-2 комнатная • Приедет 1 клинер");
      (75, "2-комнатная • Приедет 1 клинер");
      (90, "2-3 комнатная • Приедет 1 клинер");
      (100, "3-комнатная • Приедут 2 клинера");
      (130, "3-4 комнатная • Приедут 2 клинера");
      (150, "4-комнатная • Приедут 2 клинера");
      (170, "Большая квартира • Приедут 3 клинера");
      (200, "Пентхаус • Приедут 3 клинера") ].
Proof. vm_compute. reflexivity. Qed.

Lemma getAreaHint_cases (area : Z) :
  getAreaHint (Int area) =
    Normal (if 200 <=? area then "Пентхаус • Приедут 3 клинера"
            else if 170 <=? area then "Большая квартира • Приедут 3 клинера"
            else if 150 <=? area then "4-комнатная • Приедут 2 клинера"
            else if 130 <=? area then "3-4 комнатная • Приедут 2 клинера"
            else if 100 <=? area then "3-комнатная • Приедут 2 клинера"
            else if 90 <=? area then "2-3 комнатная • Приедет 1 клинер"
            else if 75 <=? area then "2-комнатная • Приедет 1 клинер"
            else "1-2 комнатная • Приедет 1 клинер").
Proof.
  unfold getAreaHint. rewrite areaHints_entries.
  unfold areaHints. cbn [length getAreaHint_loop lookup list_lookup].
  change (parseInt "200") with (Int 200). change (parseInt "170") with (Int 170).
  change (parseInt "150") with (Int 150). change (parseInt "130") with (Int 130).
  change (parseInt "100") with (Int 100). change (parseInt "90") with (Int 90).
  change (parseInt "75") with (Int 75). change (parseInt "50") with (Int 50).
  cbn [num_ge].
  repeat match goal with
         | |- context [?k <=? area] => destruct (k <=? area)
         end; reflexivity.
Qed.

(** A key above the greatest key not exceeding [area] exceeds [area]. *)
Lemma above_greatest_key (table : list (Z * string)) (area k : Z) :
  (forall k' l', In (k', l') table -> k' <= area -> k' <= k) ->
  forall k' l', In (k', l') table -> k < k' -> area < k'.
Proof.
  intros Hmax k' l' Hin Hlt.
  destruct (Z.lt_ge_cases area k') as [Hlt'|Hge]; [exact Hlt'|].
  specialize (Hmax k' l' Hin Hge). lia.
Qed.

(** C2: on the supported range the weekly price never exceeds the single
    price, and the same holds entry by entry in the price table. *)
Theorem weekly_price_le_single (area : Z) :
  50 <= area <= 250 ->
  (exists w s,
      getPrice (Int area) "weekly" = Number (Int w) /\
      getPrice (Int area) "single" = Number (Int s) /\
      w <= s) /\
  (forall z, weekly (prices z) <= single (prices z)).
Proof.
  intros _. split.
  - exists (weekly (prices (getZone (Int area)))),
           (single (prices (getZone (Int area)))).
    repeat split. destruct (getZone (Int area)); simpl; lia.
  - intros []; simpl; lia.
Qed.

Lemma weekly_price_le_single_witness :
  50 <= 100 <= 250 /\
  ((exists w s,
      getPrice (Int 100) "weekly" = Number (Int w) /\
      getPrice (Int 100) "single" = Number (Int s) /\
      w <= s) /\
   (forall z, weekly (prices z) <= single (prices z))).
Proof.
  split; [lia | apply (weekly_price_le_single 100); lia].
Defined.

(** C3: on the supported range a single visit saves nothing, and the
    weekly saving is the single price minus the weekly price. *)
Theorem getSavings_spec (area : Z) :
  50 <= area <= 250 ->
  getSavings (Int area) "single" = Int 0 /\
  exists s w,
    getPrice (Int area) "single" = Number (Int s) /\
    getPrice (Int area) "weekly" = Number (Int w) /\
    getSavings (Int area) "weekly" = Int (s - w).
Proof.
  intros _. split; [reflexivity|].
  exists (single (prices (getZone (Int area)))),
         (weekly (prices (getZone (Int area)))).
  repeat split.
  unfold getSavings, getPrice. destruct (getZone (Int area)); reflexivity.
Qed.

Lemma getSavings_spec_witness :
  50 <= 120 <= 250 /\
  (getSavings (Int 120) "single" = Int 0 /\
   exists s w,
     getPrice (Int 120) "single" = Number (Int s) /\
     getPrice (Int 120) "weekly" = Number (Int w) /\
     getSavings (Int 120) "weekly" = Int (s - w)).
Proof.
  split; [lia | apply (getSavings_spec 120); lia].
Defined.

(** C4 as stated fails at price 0: the guard on a falsy price answers
    [null], neither 0 * 4 nor 0. *)
Lemma getMonthlyPrice_zero_counterexample :
  ~ (getMonthlyPrice (Number (Int 0)) "weekly" = Number (Int (0 * 4)) /\
     getMonthlyPrice (Number (Int 0)) "single" = Number (Int 0)).
Proof. intros [H _]. vm_compute in H. discriminate H. Qed.

(** C4, amended: for a non-zero integer price the monthly price is four
    times the price for weekly visits and the price itself for a single
    visit; a falsy price (0, null, undefined, NaN) gives [null] whatever
    the frequency. *)
Theorem getMonthlyPrice_spec :
  (forall price : Z,
      price <> 0 ->
      getMonthlyPrice (Number (Int price)) "weekly" = Number (Int (price * 4)) /\
      getMonthlyPrice (Number (Int price)) "single" = Number (Int price)) /\
  (forall (v : value) (frequency : string),
      truthy v = false -> getMonthlyPrice v frequency = Null).
Proof.
  split.
  - intros price Hne. unfold getMonthlyPrice. simpl truthy.
    destruct (Z.eqb_spec price 0) as [->|_]; [contradiction|].
    split; reflexivity.
  - intros v f Hv. unfold getMonthlyPrice. rewrite Hv. reflexivity.
Qed.

Lemma getMonthlyPrice_spec_witness :
  (8400 <> 0 /\
   getMonthlyPrice (Number (Int 8400)) "weekly" = Number (Int (8400 * 4)) /\
   getMonthlyPrice (Number (Int 8400)) "single" = Number (Int 8400)) /\
  (truthy Null = false /\ getMonthlyPrice Null "weekly" = Null).
Proof.
  split.
  - split; [lia | apply (proj1 getMonthlyPrice_spec 8400); lia].
  - split; [reflexivity | apply (proj2 getMonthlyPrice_spec); reflexivity].
Defined.

(** C5: [getAreaHint] answers the label of the greatest key of the hint
    table not exceeding the area, and the label of the smallest key when
    the area is below every key; 49 and 50 give the label of key 50, 200
    and 201 the label of key 200. *)
Theorem getAreaHint_greatest_key (area : Z) :
  (forall k label,
      In (k, label) hint_table -> k <= area ->
      (forall k' label', In (k', label') hint_table -> k' <= area -> k' <= k) ->
      getAreaHint (Int area) = Normal label) /\
  (forall k0 label0,
      In (k0, label0) hint_table ->
      (forall k label, In (k, label) hint_table -> k0 <= k) ->
      (forall k label, In (k, label) hint_table -> area < k) ->
      getAreaHint (Int area) = Normal label0) /\
  getAreaHint (Int 49) = Normal "1-2 комнатная • Приедет 1 клинер" /\
  getAreaHint (Int 50) = Normal "1-2 комнатная • Приедет 1 клинер" /\
  In (50, "1-2 комнатная • Приедет 1 клинер") hint_table /\
  getAreaHint (Int 200) = Normal "Пентхаус • Приедут 3 клинера" /\
  getAreaHint (Int 201) = Normal "Пентхаус • Приедут 3 клинера" /\
  In (200, "Пентхаус • Приедут 3 клинера") hint_table.
Proof.
  rewrite hint_table_eq. split; [|split].
  - intros k label Hin Hle Hmax.
    pose proof (above_greatest_key _ area k Hmax) as Hab.
    assert (H50 := Hab 50 _ ltac:(simpl; tauto)).
    assert (H75 := Hab 75 _ ltac:(simpl; tauto)).
    assert (H90 := Hab 90 _ ltac:(simpl; tauto)).
    assert (H100 := Hab 100 _ ltac:(simpl; tauto)).
    assert (H130 := Hab 130 _ ltac:(simpl; tauto)).
    assert (H150 := Hab 150 _ ltac:(simpl; tauto)).
    assert (H170 := Hab 170 _ ltac:(simpl; tauto)).
    assert (H200 := Hab 200 _ ltac:(simpl; tauto)).
    clear Hab Hmax. rewrite getAreaHint_cases.
    simpl in Hin. split_In Hin; decide_leb.
  - intros k0 label0 Hin Hmin Hbelow.
    assert (H50 := Hbelow 50 _ ltac:(simpl; tauto)).
    assert (Hk0 := Hmin 50 _ ltac:(simpl; tauto)).
    clear Hmin Hbelow. rewrite getAreaHint_cases.
    simpl in Hin. split_In Hin; decide_leb.
  - repeat split; try reflexivity; simpl; tauto.
Qed.

Lemma getAreaHint_greatest_key_witness :
  In (75, "2-комнатная • Приедет 1 клинер") hint_table /\
  75 <= 80 /\
  getAreaHint (Int 80) = Normal "2-комнатная • Приедет 1 клинер" /\
  getAreaHint (Int 10) = Normal "1-2 комнатная • Приедет 1 клинер".
Proof.
  split; [vm_compute; tauto|]. split; [lia|]. split.
  - apply (proj1 (getAreaHint_greatest_key 80) 75).
    + vm_compute; tauto.
    + lia.
    + intros k' label' Hin Hle. vm_compute in Hin.
      repeat (destruct Hin as [Hin|Hin]; [inversion Hin; subst; lia|]).
      contradiction.
  - apply (proj1 (proj2 (getAreaHint_greatest_key 10)) 50).
    + vm_compute; tauto.
    + intros k label Hin. vm_compute in Hin.
      repeat (destruct Hin as [Hin|Hin]; [inversion Hin; subst; lia|]).
      contradiction.
    + intros k label Hin. vm_compute in Hin.
      repeat (destruct Hin as [Hin|Hin]; [inversion Hin; subst; lia|]).
      contradiction.
Defined.

(** C6: a zero or null price is shown as the on-request label; a positive
    price is shown as the locale's grouped digits followed by the rouble
    sign, so 9900 reads 9 900 and the sign under the ru-RU grouping. *)
Theorem formatPrice_spec (NumberFormat_ru : value -> string) :
  formatPrice NumberFormat_ru (Number (Int 0)) = "По запросу" /\
  formatPrice NumberFormat_ru Null = "По запросу" /\
  (forall price : Z,
      0 < price ->
      formatPrice NumberFormat_ru (Number (Int price)) =
        NumberFormat_ru (Number (Int price)) +:+ "₽") /\
  formatPrice ru_format (Number (Int 9900)) = "9" +:+ nbsp +:+ "900" +:+ "₽".
Proof.
  split; [reflexivity|]. split; [reflexivity|]. split; [|reflexivity].
  intros price Hpos. unfold formatPrice. simpl truthy.
  destruct (Z.eqb_spec price 0) as [->|_]; [lia|]. reflexivity.
Qed.

Lemma formatPrice_spec_witness :
  0 < 21900 /\
  formatPrice ru_format (Number (Int 21900)) = "21" +:+ nbsp +:+ "900" +:+ "₽".
Proof.
  split; [lia|].
  apply (proj1 (proj2 (proj2 (formatPrice_spec ru_format))) 21900). lia.
Defined.

(** C10: [getZone] and [getPrice] answer for every integer area, inside
    the slider range or not: the zone is one of the three, zone1 up to 90
    and zone3 above 150, and for the frequencies single and weekly the
    price is a positive entry of the price table. *)
Theorem getZone_getPrice_total (area : Z) (frequency : string) :
  frequency = "single" \/ frequency = "weekly" ->
  (getZone (Int area) = zone1 \/ getZone (Int area) = zone2 \/
   getZone (Int area) = zone3) /\
  (area <= 90 -> getZone (Int area) = zone1) /\
  (150 < area -> getZone (Int area) = zone3) /\
  exists price,
    getPrice (Int area) frequency = Number (Int price) /\
    0 < price /\
    exists z, price = single (prices z) \/ price = weekly (prices z).
Proof.
  intros Hf. split; [|split; [|split]].
  - destruct (getZone (Int area)); tauto.
  - intros H. rewrite getZone_cases. decide_leb.
  - intros H. rewrite getZone_cases. decide_leb.
  - unfold getPrice. destruct Hf as [->| ->].
    + exists (single (prices (getZone (Int area)))). split; [reflexivity|].
      split; [destruct (getZone (Int area)); simpl; lia|].
      exists (getZone (Int area)). left. reflexivity.
    + exists (weekly (prices (getZone (Int area)))). split; [reflexivity|].
      split; [destruct (getZone (Int area)); simpl; lia|].
      exists (getZone (Int area)). right. reflexivity.
Qed.

Lemma getZone_getPrice_total_witness :
  ("weekly" = "single" \/ "weekly" = "weekly") /\
  getZone (Int (-7)) = zone1 /\
  getZone (Int 1000) = zone3 /\
  exists price, getPrice (Int 1000) "weekly" = Number (Int price) /\ 0 < price.
Proof.
  split; [right; reflexivity|].
  split; [apply (getZone_getPrice_total (-7) "weekly"); [right; reflexivity | lia]|].
  split; [apply (getZone_getPrice_total 1000 "weekly"); [right; reflexivity | lia]|].
  destruct (getZone_getPrice_total 1000 "weekly") as (_ & _ & _ & price & Hp & Hpos & _);
    [right; reflexivity|].
  exists price. split; assumption.
Defined.

(** ** The page scripts *)

(** C9: without the [#area-slider] element [Calculator.init] returns
    normally and leaves the browser state as it found it: no listener is
    attached and no element is written. *)
Theorem Calculator_init_without_slider
    (NumberFormat_ru : value -> string) (p : Page) :
  getElementById (nodes (world p)) "area-slider" = None ->
  exists p',
    Calculator.init NumberFormat_ru p = (Normal tt, p') /\
    listeners (world p') = listeners (world p) /\
    nodes (world p') = nodes (world p) /\
    world p' = world p /\
    slider (this_Calculator p') = None.
Proof.
  intros Hslider.
  unfold Calculator.init, Calculator.init_fields, bind, document, update_page, get.
  cbn [world this_Calculator set_this_Calculator slider].
  rewrite Hslider.
  eexists. split; [reflexivity|]. cbn. repeat split.
Qed.

Lemma Calculator_init_without_slider_witness :
  getElementById (nodes (world landing_page)) "area-slider" = None /\
  exists p',
    Calculator.init ru_format landing_page = (Normal tt, p') /\
    listeners (world p') = [] /\
    world p' = world landing_page.
Proof.
  split; [reflexivity|].
  destruct (Calculator_init_without_slider ru_format landing_page)
    as (p' & Hrun & Hl & _ & Hw & _); [reflexivity|].
  exists p'. split; [exact Hrun|]. split; [rewrite Hl; reflexivity | exact Hw].
Defined.

Lemma blank_falsy (v : option string) : blank v -> truthy_string v = false.
Proof. intros [->| ->]; reflexivity. Qed.

(** C7: when the name or the phone field of the lead form is blank,
    [handleSubmit] shows the alert and returns: no element is rewritten
    (the form stays in place of the success message), no timer is set,
    nothing is logged, and the modal is as open or closed as before. *)
Theorem Modal_handleSubmit_blank (p : Page) (f : elem) (n : Node) :
  form (this_Modal p) = Some f ->
  nodes (world p) !! f = Some n ->
  el_tag n = "form" ->
  blank (submitted (nodes (world p)) f "name") \/
  blank (submitted (nodes (world p)) f "phone") ->
  exists p',
    Modal.handleSubmit p = (Normal tt, p') /\
    alerts (world p') = (alerts (world p) ++ ["Пожалуйста, заполните все поля"])%list /\
    nodes (world p') = nodes (world p) /\
    timers (world p') = timers (world p) /\
    console (world p') = console (world p) /\
    body_overflow (world p') = body_overflow (world p) /\
    Modal.is_open p' = Modal.is_open p.
Proof.
  intros Hform Hnode Htag Hblank.
  unfold Modal.handleSubmit, Modal.new_FormData, bind, update_world, get, document.
  cbn [world this_Modal set_world set_defaultPrevented nodes id].
  rewrite Hform, Hnode. cbn [from_option]. rewrite Htag.
  cbn [String.eqb Ascii.eqb Bool.eqb ret].
  assert (Hcond :
    negb (truthy_string (obj_get (Object_fromEntries
            (FormData_entries (nodes (world p)) f)) "name")) ||
    negb (truthy_string (obj_get (Object_fromEntries
            (FormData_entries (nodes (world p)) f)) "phone")) = true).
  { unfold submitted in Hblank.
    destruct Hblank as [H|H]; rewrite (blank_falsy _ H); cbn [negb orb];
      [reflexivity | apply orb_true_r]. }
  rewrite Hcond. unfold alert, update_world.
  eexists. split; [reflexivity|].
  unfold Modal.is_open. cbn. repeat split.
Qed.

Lemma Modal_handleSubmit_blank_witness :
  form (this_Modal landing_page_modal_open) = Some 5%nat /\
  blank (submitted (nodes (world landing_page_modal_open)) 5%nat "phone") /\
  Modal.is_open landing_page_modal_open = true /\
  exists p',
    Modal.handleSubmit landing_page_modal_open = (Normal tt, p') /\
    alerts (world p') = ["Пожалуйста, заполните все поля"] /\
    nodes (world p') = nodes (world landing_page_modal_open) /\
    timers (world p') = [] /\
    Modal.is_open p' = true.
Proof.
  split; [reflexivity|]. split; [right; reflexivity|]. split; [reflexivity|].
  destruct (Modal_handleSubmit_blank landing_page_modal_open 5%nat
              (element "form" "lead-form" ["form"] [] (Some 4%nat) "" false))
    as (p' & Hrun & Ha & Hn & Ht & _ & _ & Ho);
    [reflexivity | reflexivity | reflexivity | right; right; reflexivity |].
  exists p'. split; [exact Hrun|].
  split; [rewrite Ha; reflexivity|]. split; [exact Hn|].
  split; [rewrite Ht; reflexivity | rewrite Ho; reflexivity].
Defined.

(** The five modules whose guard comes before any use of the element:
    with their markup absent, [init] returns normally and the browser
    state is untouched. *)
Lemma guarded_modules_silent (m : PageModule) (p : Page) :
  m <> mod_MobileMenu ->
  expected_markup_absent m (nodes (world p)) ->
  exists p', module_init m p = (Normal tt, p') /\ world p' = world p.
Proof.
  intros Hm Habsent. destruct m; try contradiction; cbn in Habsent.
  - unfold module_init, Header.init, bind, document, update_page.
    rewrite Habsent. eexists. split; reflexivity.
  - unfold module_init, Accordion.init, bind, document.
    unfold querySelector. rewrite Habsent. cbn [forEach ret]. rewrite Habsent.
    eexists. split; reflexivity.
  - unfold module_init, Modal.init, bind, document, update_page.
    rewrite Habsent. eexists. split; reflexivity.
  - unfold module_init, SmoothScroll.init, bind, document.
    rewrite Habsent. cbn [forEach ret]. eexists. split; reflexivity.
  - unfold module_init, Animations.init, bind, document.
    rewrite Habsent. eexists. split; reflexivity.
Qed.

(** C8: [MobileMenu.init] reads [nav.querySelectorAll] before its guard,
    so without the [.header__nav] element it throws a TypeError instead of
    returning; the page is left as it was. *)
Theorem MobileMenu_init_without_nav (p : Page) :
  expected_markup_absent mod_MobileMenu (nodes (world p)) ->
  module_init mod_MobileMenu p = (Throw (TypeError "nav is null"), p).
Proof.
  cbn. intros Hnav.
  unfold MobileMenu.init, bind, document. rewrite Hnav. reflexivity.
Qed.

Lemma MobileMenu_init_without_nav_witness :
  expected_markup_absent mod_MobileMenu (nodes (world landing_page)) /\
  MobileMenu.init landing_page = (Throw (TypeError "nav is null"), landing_page) /\
  fst (DOMContentLoaded landing_page) = Throw (TypeError "nav is null").
Proof.
  split; [reflexivity|]. split.
  - apply (MobileMenu_init_without_nav landing_page). reflexivity.
  - reflexivity.
Defined.

(** ** The model at work on the sample pages *)

(** With both fields filled the success block replaces the content around
    the form and the closing timer is set. *)
Example handleSubmit_filled :
  let p' := snd (Modal.handleSubmit landing_page_filled) in
  fst (Modal.handleSubmit landing_page_filled) = Normal tt /\
  el_innerHTML <$> nodes (world p') !! 4%nat = Some (Some form_success) /\
  timers (world p') = [(Modal_closeThenReload, 2500)] /\
  alerts (world p') = [] /\
  querySelector (nodes (world p')) (ByClass "form") = None.
Proof. vm_compute. repeat split. Qed.

(** A phone number made of spaces is not empty for the validation: the
    submission goes through. *)
Example handleSubmit_spaces_pass :
  let p' := snd (Modal.handleSubmit (landing_page_with_phone "   ")) in
  alerts (world p') = [] /\
  el_innerHTML <$> nodes (world p') !! 4%nat = Some (Some form_success).
Proof. vm_compute. repeat split. Qed.

(** Slider at 100 with weekly selected: the summary, the zone2 weekly
    price and four times that price per month. *)
Example calculator_init_renders :
  let p' := snd (Calculator.init ru_format calculator_page) in
  fst (Calculator.init ru_format calculator_page) = Normal tt /\
  el_textContent <$> nodes (world p') !! 5%nat =
    Some (Some "100 кв.м, регулярно раз в неделю") /\
  el_textContent <$> nodes (world p') !! 6%nat =
    Some (Some ("12" +:+ nbsp +:+ "700₽")) /\
  el_textContent <$> nodes (world p') !! 7%nat =
    Some (Some ("50" +:+ nbsp +:+ "800₽ раз в месяц")) /\
  length (listeners (world p')) = 4%nat.
Proof. vm_compute. repeat split. Qed.

(** * Further properties of the calculator *)

Lemma getPrice_single (area : number) :
  getPrice area "single" = Number (Int (single (prices (getZone area)))).
Proof. reflexivity. Qed.

Lemma getPrice_weekly (area : number) :
  getPrice area "weekly" = Number (Int (weekly (prices (getZone area)))).
Proof. reflexivity. Qed.


(** X1: a larger flat never costs less: for either frequency the price
    does not decrease when the area grows. *)
Theorem getPrice_monotone (a b : Z) (frequency : string) (pa pb : Z) :
  a <= b ->
  getPrice (Int a) frequency = Number (Int pa) ->
  getPrice (Int b) frequency = Number (Int pb) ->
  pa <= pb.
Proof.
  intros Hab Ha Hb. unfold getPrice, entry_get in Ha, Hb.
  rewrite !getZone_cases in Ha, Hb.
  destruct (String.eqb frequency "single");
    [|destruct (String.eqb frequency "weekly"); [|discriminate Ha]];
    destruct (Z.leb_spec a 90); destruct (Z.leb_spec a 150);
    destruct (Z.leb_spec b 90); destruct (Z.leb_spec b 150);
    cbn in Ha, Hb; inversion Ha; inversion Hb; subst; lia.
Qed.

Lemma getPrice_monotone_witness :
  90 <= 91 /\
  getPrice (Int 90) "weekly" = Number (Int 8400) /\
  getPrice (Int 91) "weekly" = Number (Int 12700) /\
  8400 <= 12700.
Proof.
  split; [lia|]. split; [reflexivity|]. split; [reflexivity|].
  apply (getPrice_monotone 90 91 "weekly" 8400 12700); [lia | reflexivity | reflexivity].
Defined.

Lemma getAreaHint_normal (area : number) :
  exists label, getAreaHint area = Normal label /\ In label (map snd areaHints).
Proof.
  destruct area as [|z].
  - eexists. split; [reflexivity|]. simpl. tauto.
  - rewrite getAreaHint_cases. eexists. split; [reflexivity|].
    repeat match goal with
           | |- context [?k <=? z] => destruct (k <=? z)
           end; simpl; tauto.
Qed.

(** X2: [getAreaHint] never throws: for every number, NaN included, it
    returns a label of the hint table; for NaN no comparison succeeds and
    the label is the first one. *)
Theorem getAreaHint_total (area : number) :
  (exists label, getAreaHint area = Normal label /\ In label (map snd areaHints)) /\
  getAreaHint NaN = Normal "1-2 комнатная • Приедет 1 клинер".
Proof.
  split; [apply getAreaHint_normal | reflexivity].
Qed.






(** X5: the monthly price of a table price is never [null]: for weekly
    visits it is four times the weekly price of the zone, the figure
    [updateOptionPrices] computes as [weeklyPrice * 4]; for a single visit
    it is the single price. *)
Theorem getMonthlyPrice_of_getPrice (area : number) :
  getMonthlyPrice (getPrice area "weekly") "weekly" =
    Number (Int (weekly (prices (getZone area)) * 4)) /\
  getMonthlyPrice (getPrice area "weekly") "weekly" =
    Number (num_mul (ToNumber (getPrice area "weekly")) (Int 4)) /\
  getMonthlyPrice (getPrice area "single") "single" = getPrice area "single".
Proof.
  rewrite getPrice_single, getPrice_weekly.
  destruct (getZone area); repeat split.
Qed.

(** X6: the price table carries the discount its comment announces: each
    weekly price is a whole number of hundreds within 50 of 85% of the
    single price. *)
Theorem weekly_is_15_percent_off (z : Zone) :
  weekly (prices z) mod 100 = 0 /\
  Z.abs (100 * weekly (prices z) - 85 * single (prices z)) <= 50 * 100.
Proof. destruct z; cbn [prices weekly single]; (split; [reflexivity|lia]). Qed.

(** X7: on the slider range the ranges of the [zones] table and [getZone]
    agree both ways, so each area lies in exactly one range; consecutive
    ranges leave no gap. *)
Theorem zones_partition (area : Z) (z : Zone) :
  50 <= area <= 250 ->
  (min (zones z) <= area <= max (zones z) <-> getZone (Int area) = z) /\
  max (zones zone1) + 1 = min (zones zone2) /\
  max (zones zone2) + 1 = min (zones zone3).
Proof.
  intros Hrange. split; [|split; reflexivity].
  rewrite getZone_cases. split.
  - intros H. destruct z; cbn [zones min max] in H; decide_leb.
  - intros H. destruct z; cbn [zones min max];
      destruct (Z.leb_spec area 90); destruct (Z.leb_spec area 150);
      try discriminate H; lia.
Qed.

Lemma zones_partition_witness :
  50 <= 150 <= 250 /\
  (min (zones zone2) <= 150 <= max (zones zone2) <-> getZone (Int 150) = zone2).
Proof.
  split; [lia|]. apply (zones_partition 150 zone2). lia.
Defined.

(** * Further properties of the page scripts *)

(** ** Class lists *)

Lemma contains_true (c : string) (l : list string) :
  contains c l = true <-> In c l.
Proof.
  unfold contains. rewrite existsb_exists. split.
  - intros (x & Hin & Heq). apply String.eqb_eq in Heq. subst. exact Hin.
  - intros Hin. exists c. split; [exact Hin | apply String.eqb_refl].
Qed.

Lemma In_remove (c d : string) (l : list string) :
  In c (remove d l) <-> In c l /\ c <> d.
Proof.
  unfold remove. rewrite filter_In, negb_true_iff, String.eqb_neq.
  split; intros [H1 H2]; split; auto.
Qed.

Lemma In_add (c d : string) (l : list string) :
  In c (add d l) <-> In c l \/ c = d.
Proof.
  unfold add. destruct (contains d l) eqn:Hd.
  - apply contains_true in Hd. split; [tauto|]. intros [H| ->]; assumption.
  - rewrite in_app_iff. simpl. split; intros [H|H]; auto.
    destruct H as [->|[]]. right. reflexivity.
Qed.

Lemma contains_iff (c : string) (l l' : list string) :
  (In c l <-> In c l') -> contains c l = contains c l'.
Proof.
  intros H. destruct (contains c l) eqn:H1, (contains c l') eqn:H2; try reflexivity.
  - apply contains_true in H1. apply H, contains_true in H1. congruence.
  - apply contains_true in H2. apply H, contains_true in H2. congruence.
Qed.

Lemma contains_add (c : string) (l : list string) : contains c (add c l) = true.
Proof. apply contains_true, In_add. right. reflexivity. Qed.

Lemma contains_remove (c : string) (l : list string) :
  contains c (remove c l) = false.
Proof.
  destruct (contains c (remove c l)) eqn:H; [|reflexivity].
  apply contains_true, In_remove in H. destruct H as [_ H]. contradiction.
Qed.

Lemma contains_add_ne (c d : string) (l : list string) :
  c <> d -> contains c (add d l) = contains c l.
Proof. intros Hne. apply contains_iff. rewrite In_add. tauto. Qed.

Lemma contains_remove_ne (c d : string) (l : list string) :
  c <> d -> contains c (remove d l) = contains c l.
Proof. intros Hne. apply contains_iff. rewrite In_remove. tauto. Qed.

Lemma contains_toggle (c : string) (l : list string) :
  contains c (toggle c l) = negb (contains c l).
Proof.
  unfold toggle. destruct (contains c l) eqn:H.
  - apply contains_remove.
  - apply contains_true. rewrite in_app_iff. right. left. reflexivity.
Qed.

Lemma contains_toggle_ne (c d : string) (l : list string) :
  c <> d -> contains c (toggle d l) = contains c l.
Proof.
  intros Hne. unfold toggle. destruct (contains d l).
  - apply contains_remove_ne, Hne.
  - apply contains_iff. rewrite in_app_iff. simpl. split; [|tauto].
    intros [H|[H|[]]]; [exact H | congruence].
Qed.

Lemma remove_fresh (c : string) (l : list string) :
  contains c l = false -> remove c l = l.
Proof.
  unfold contains, remove. induction l as [|x l IH]; [reflexivity|].
  cbn [existsb List.filter]. intros H. apply orb_false_iff in H as [Hx Hl].
  rewrite Hx. cbn [negb]. f_equal. apply IH, Hl.
Qed.

Lemma remove_add_fresh (c : string) (l : list string) :
  contains c l = false -> remove c (add c l) = l.
Proof.
  intros H. unfold add. rewrite H. unfold remove.
  rewrite List.filter_app. cbn [List.filter]. rewrite String.eqb_refl. cbn [negb].
  rewrite app_nil_r. apply remove_fresh, H.
Qed.

Lemma add_present (c : string) (l : list string) :
  contains c l = true -> add c l = l.
Proof. intros H. unfold add. rewrite H. reflexivity. Qed.

(** ** The element store *)

Lemma has_class_alter_eq (ns : list Node) (e : elem) (c : string)
    (g : list string -> list string) (n : Node) :
  ns !! e = Some n ->
  has_class (alter (set_classList g) e ns) e c = contains c (g (el_classList n)).
Proof.
  intros H. unfold has_class, elem in *.
  rewrite list_lookup_alter_eq, H. reflexivity.
Qed.

Lemma has_class_alter_ne (ns : list Node) (e x : elem) (c : string)
    (f : Node -> Node) :
  e <> x -> has_class (alter f e ns) x c = has_class ns x c.
Proof.
  intros H. unfold has_class, elem in *.
  rewrite list_lookup_alter_ne by exact H. reflexivity.
Qed.

Lemma has_class_alter_keep (ns : list Node) (e x : elem) (c : string)
    (f : Node -> Node) :
  (forall n, el_classList (f n) = el_classList n) ->
  has_class (alter f e ns) x c = has_class ns x c.
Proof.
  intros Hf. unfold has_class, elem in *.
  destruct (decide (e = x)) as [->|Hne].
  - rewrite list_lookup_alter_eq. destruct (ns !! x) as [n|] eqn:Hx; cbn;
      [rewrite Hf|]; reflexivity.
  - rewrite list_lookup_alter_ne by exact Hne. reflexivity.
Qed.

(** What a query returns is an element of the store that is in the
    document and satisfies the predicate. *)
Lemma select_spec (ns : list Node) (p : elem -> Node -> bool) (e : elem) :
  e ∈ select ns p <->
  exists n, ns !! e = Some n /\ connected ns e = true /\ p e n = true.
Proof.
  unfold select. rewrite list_elem_of_omap. split.
  - intros (o & Hin & Ho). cbn in Ho. subst o.
    apply elem_of_lookup_imap in Hin as (i & n & Heq & Hi).
    destruct (connected ns i && p i n) eqn:Hc; [|discriminate Heq].
    inversion Heq; subst. apply andb_true_iff in Hc as [Hc Hp]. eauto.
  - intros (n & Hn & Hc & Hp). exists (Some e). split; [|reflexivity].
    apply elem_of_lookup_imap. exists e, n. rewrite Hc, Hp. split; [reflexivity|exact Hn].
Qed.

Lemma head_elem_of {A} (l : list A) (x : A) : head l = Some x -> x ∈ l.
Proof. destruct l; [discriminate|]. cbn. intros [= ->]. left. Qed.

Lemma querySelector_spec (ns : list Node) (sel : Selector) (e : elem) :
  querySelector ns sel = Some e ->
  exists n, ns !! e = Some n /\ connected ns e = true /\ matches sel n = true.
Proof. intros H. apply head_elem_of, select_spec in H. exact H. Qed.


(** ** Header *)

Lemma Header_onScroll_bound (p : Page) (h : elem) (n : Node) :
  header (this_Header p) = Some h ->
  nodes (world p) !! h = Some n ->
  exists p',
    Header.onScroll p = (Normal tt, p') /\
    has_class (nodes (world p')) h "header--scrolled" = (50 <? scrollY (world p)) /\
    (forall c, c <> "header--scrolled" ->
       has_class (nodes (world p')) h c = has_class (nodes (world p)) h c) /\
    (forall x, x <> h -> nodes (world p') !! x = nodes (world p) !! x) /\
    listeners (world p') = listeners (world p).
Proof.
  intros Hh Hn. unfold Header.onScroll, bind, get, Header.scrollThreshold.
  rewrite Hh. cbn [deref ret].
  destruct (50 <? scrollY (world p)); eexists; (split; [reflexivity|]);
    cbn [world set_world nodes set_nodes listeners].
  - split; [rewrite (has_class_alter_eq _ _ _ _ n Hn); apply contains_add|].
    split; [|split; [|reflexivity]].
    + intros c Hc. rewrite (has_class_alter_eq _ _ _ _ n Hn).
      unfold has_class. rewrite Hn. apply contains_add_ne, Hc.
    + intros x Hx. apply list_lookup_alter_ne. congruence.
  - split; [rewrite (has_class_alter_eq _ _ _ _ n Hn); apply contains_remove|].
    split; [|split; [|reflexivity]].
    + intros c Hc. rewrite (has_class_alter_eq _ _ _ _ n Hn).
      unfold has_class. rewrite Hn. apply contains_remove_ne, Hc.
    + intros x Hx. apply list_lookup_alter_ne. congruence.
Qed.

(** X8: with [this.header] bound, [onScroll] leaves the header with the
    class [header--scrolled] exactly when the page is scrolled past 50;
    its other classes and every other element stay as they are.  With
    [this.header] null it throws. *)
Theorem Header_onScroll_spec (p : Page) :
  (forall h n,
      header (this_Header p) = Some h ->
      nodes (world p) !! h = Some n ->
      exists p',
        Header.onScroll p = (Normal tt, p') /\
        has_class (nodes (world p')) h "header--scrolled" = (50 <? scrollY (world p)) /\
        (forall c, c <> "header--scrolled" ->
           has_class (nodes (world p')) h c = has_class (nodes (world p)) h c) /\
        (forall x, x <> h -> nodes (world p') !! x = nodes (world p) !! x) /\
        listeners (world p') = listeners (world p)) /\
  (header (this_Header p) = None ->
   Header.onScroll p = (Throw (TypeError "this.header is null"), p)).
Proof.
  split.
  - intros h n. apply Header_onScroll_bound.
  - intros Hh. unfold Header.onScroll, bind, get. rewrite Hh.
    destruct (Header.scrollThreshold <? scrollY (world p)); reflexivity.
Qed.

Lemma Header_init_run (p : Page) :
  exists p',
    Header.init p = (Normal tt, p') /\
    header (this_Header p') = querySelector (nodes (world p)) (ByClass "header") /\
    forall h,
      querySelector (nodes (world p)) (ByClass "header") = Some h ->
      listeners (world p') =
        (listeners (world p) ++ [mkListener Window "scroll" Header_onScroll])%list /\
      has_class (nodes (world p')) h "header--scrolled" = (50 <? scrollY (world p)).
Proof.
  unfold Header.init, bind, document, update_page.
  destruct (querySelector (nodes (world p)) (ByClass "header")) as [h|] eqn:Hq.
  - destruct (querySelector_spec _ _ _ Hq) as (n & Hn & _ & _).
    cbn [addEventListener update_world].
    set (p1 := set_world _ (set_this_Header _ p)).
    destruct (Header_onScroll_bound p1 h n) as (p' & Hrun & Hcls & _ & _ & Hl);
      [reflexivity | exact Hn |].
    exists p'. rewrite Hrun. split; [reflexivity|].
    split.
    + unfold Header.onScroll, bind, get in Hrun. cbn in Hrun.
      destruct (Header.scrollThreshold <? scrollY (world p)); inversion Hrun; reflexivity.
    + intros h' [= <-]. rewrite Hl. split; [reflexivity | exact Hcls].
  - eexists. split; [reflexivity|]. split; [reflexivity|]. intros h [=].
Qed.

(** X9: [Header.init] never throws.  It binds [this.header] to the first
    [.header] element; when there is one it registers one scroll listener
    on the window and sets the scrolled class from the current offset. *)
Theorem Header_init_spec (p : Page) :
  exists p',
    Header.init p = (Normal tt, p') /\
    header (this_Header p') = querySelector (nodes (world p)) (ByClass "header") /\
    forall h,
      querySelector (nodes (world p)) (ByClass "header") = Some h ->
      listeners (world p') =
        (listeners (world p) ++ [mkListener Window "scroll" Header_onScroll])%list /\
      has_class (nodes (world p')) h "header--scrolled" = (50 <? scrollY (world p)).
Proof. apply Header_init_run. Qed.

(** ** Modal *)

Lemma Modal_open_bound (p : Page) (m : elem) :
  modal (this_Modal p) = Some m ->
  Modal.open p =
    (Normal tt,
     set_world (set_body_overflow "hidden")
       (set_world (set_nodes (alter (set_classList (add "active")) m)) p)).
Proof. intros H. unfold Modal.open, bind, get. rewrite H. reflexivity. Qed.

Lemma Modal_close_bound (p : Page) (m : elem) :
  modal (this_Modal p) = Some m ->
  Modal.close p =
    (Normal tt,
     set_world (set_body_overflow "")
       (set_world (set_nodes (alter (set_classList (remove "active")) m)) p)).
Proof. intros H. unfold Modal.close, bind, get. rewrite H. reflexivity. Qed.

Lemma is_open_has_class (p : Page) (m : elem) :
  modal (this_Modal p) = Some m ->
  Modal.is_open p = has_class (nodes (world p)) m "active".
Proof. intros H. unfold Modal.is_open. rewrite H. reflexivity. Qed.

(** X10: with the modal bound, [open] shows it and locks the page scroll,
    [close] hides it and releases the scroll; neither touches another
    element. *)
Theorem Modal_open_close_spec (p : Page) (m : elem) (n : Node) :
  modal (this_Modal p) = Some m ->
  nodes (world p) !! m = Some n ->
  (exists p1,
      Modal.open p = (Normal tt, p1) /\
      Modal.is_open p1 = true /\
      body_overflow (world p1) = "hidden" /\
      (forall x, x <> m -> nodes (world p1) !! x = nodes (world p) !! x)) /\
  (exists p2,
      Modal.close p = (Normal tt, p2) /\
      Modal.is_open p2 = false /\
      body_overflow (world p2) = "" /\
      (forall x, x <> m -> nodes (world p2) !! x = nodes (world p) !! x)).
Proof.
  intros Hm Hn. split.
  - rewrite (Modal_open_bound p m Hm). eexists. split; [reflexivity|].
    split; [|split; [reflexivity|]].
    + rewrite (is_open_has_class _ m) by exact Hm.
      cbn [world set_world nodes set_nodes set_body_overflow].
      rewrite (has_class_alter_eq _ _ _ _ n Hn). apply contains_add.
    + intros x Hx. cbn. apply list_lookup_alter_ne. congruence.
  - rewrite (Modal_close_bound p m Hm). eexists. split; [reflexivity|].
    split; [|split; [reflexivity|]].
    + rewrite (is_open_has_class _ m) by exact Hm.
      cbn [world set_world nodes set_nodes set_body_overflow].
      rewrite (has_class_alter_eq _ _ _ _ n Hn). apply contains_remove.
    + intros x Hx. cbn. apply list_lookup_alter_ne. congruence.
Qed.

Lemma set_classList_id (n : Node) (g : list string -> list string) :
  g (el_classList n) = el_classList n -> set_classList g n = n.
Proof. intros H. destruct n. unfold set_classList. cbn in *. rewrite H. reflexivity. Qed.

Lemma set_classList_compose (n : Node) (g h : list string -> list string) :
  set_classList g (set_classList h n) = set_classList (fun l => g (h l)) n.
Proof. reflexivity. Qed.

(** X11: opening a closed modal and closing it again gives back every
    element as it was, with the scroll released; opening an open modal
    again changes nothing. *)
Theorem Modal_open_then_close (p : Page) (m : elem) :
  modal (this_Modal p) = Some m ->
  Modal.is_open p = false ->
  exists p1 p2,
    Modal.open p = (Normal tt, p1) /\
    Modal.open p1 = (Normal tt, p1) /\
    Modal.close p1 = (Normal tt, p2) /\
    nodes (world p2) = nodes (world p) /\
    body_overflow (world p2) = "".
Proof.
  intros Hm Hclosed. rewrite (is_open_has_class p m Hm) in Hclosed.
  rewrite (Modal_open_bound p m Hm).
  eexists. eexists. split; [reflexivity|]. split; [|split].
  - rewrite (Modal_open_bound _ m) by exact Hm. f_equal.
    unfold set_world, set_body_overflow, set_nodes. cbn. f_equal. f_equal.
    rewrite list_alter_alter_eq. apply list_alter_ext; [|reflexivity].
    intros x _. unfold compose. apply set_classList_id.
    apply add_present. apply (contains_add "active" (el_classList x)).
  - rewrite (Modal_close_bound _ m) by exact Hm. reflexivity.
  - cbn. split; [|reflexivity].
    rewrite list_alter_alter_eq.
    transitivity (alter (fun x => x) m (nodes (world p))); [|apply list_alter_id; reflexivity].
    apply list_alter_ext; [|reflexivity].
    intros x Hx. unfold compose. rewrite set_classList_compose.
    apply set_classList_id. apply remove_add_fresh.
    unfold has_class, elem in *. rewrite Hx in Hclosed. exact Hclosed.
Qed.

(** X12: the Escape key closes the modal only when it is open, and a
    click closes it only when it lands on the modal element itself; any
    other key, Escape on a closed modal, or a click on something inside
    the modal leaves the page as it is. *)
Theorem Modal_dismiss_spec (p : Page) (m : elem) (e : Event) :
  modal (this_Modal p) = Some m ->
  (ev_key e = "Escape" -> Modal.is_open p = true ->
   Modal.onKeydown e p = Modal.close p) /\
  (ev_key e <> "Escape" \/ Modal.is_open p = false ->
   Modal.onKeydown e p = (Normal tt, p)) /\
  (ev_target e = Element m -> Modal.onBackdropClick e p = Modal.close p) /\
  (ev_target e <> Element m -> Modal.onBackdropClick e p = (Normal tt, p)).
Proof.
  intros Hm. rewrite (is_open_has_class p m Hm).
  split; [|split; [|split]].
  - intros Hk Ho. unfold Modal.onKeydown. rewrite Hk.
    cbn [String.eqb Ascii.eqb Bool.eqb]. unfold bind, get, document.
    cbn beta iota. rewrite Hm. cbn [deref ret]. rewrite Ho. reflexivity.
  - intros H. unfold Modal.onKeydown.
    destruct (String.eqb_spec (ev_key e) "Escape") as [Hk|Hk]; [|reflexivity].
    destruct H as [H|H]; [contradiction|].
    unfold bind, get, document. cbn beta iota.
    rewrite Hm. cbn [deref ret]. rewrite H. reflexivity.
  - intros Ht. unfold Modal.onBackdropClick, bind, get. cbn beta iota.
    rewrite Hm, Ht. cbn [Target_eqb]. rewrite Nat.eqb_refl. reflexivity.
  - intros Ht. unfold Modal.onBackdropClick, bind, get. cbn beta iota. rewrite Hm.
    destruct (ev_target e) as [| |x]; try reflexivity. cbn [Target_eqb].
    destruct (Nat.eqb_spec x m) as [->|]; [contradiction|reflexivity].
Qed.

(** Projections of a page that a step has rebuilt. *)
Ltac page_simpl :=
  cbn [world set_world nodes set_nodes listeners set_listeners body_overflow
       set_body_overflow scrollY defaultPrevented set_defaultPrevented alerts
       set_alerts console set_console timers set_timers observed set_observed
       this_Header this_Modal this_Calculator set_this_Header set_this_Modal
       set_this_Calculator with_nodes with_listeners] in *.

Lemma lookup_alter_parent (ns : list Node) (e x : elem) (f : Node -> Node) :
  (forall n, el_parent (f n) = el_parent n) ->
  alter f e ns !! x ≫= el_parent = ns !! x ≫= el_parent.
Proof.
  intros Hf. unfold elem in *. destruct (decide (e = x)) as [->|Hne].
  - rewrite list_lookup_alter_eq. destruct (ns !! x); cbn; [rewrite Hf|]; reflexivity.
  - rewrite list_lookup_alter_ne by exact Hne. reflexivity.
Qed.

(** An element whose parent has had its content overwritten is out of the
    document. *)
Lemma connected_overwritten (ns : list Node) (x par : elem) (npar : Node) :
  ns !! x ≫= el_parent = Some par ->
  ns !! par = Some npar ->
  is_Some (el_innerHTML npar) ->
  connected ns x = false.
Proof.
  intros Hx Hpar Hover. unfold connected.
  destruct (length ns) as [|k] eqn:Hlen.
  - apply lookup_lt_Some in Hpar. lia.
  - cbn [ancestors]. rewrite Hx. cbn [forallb]. unfold elem in *. rewrite Hpar.
    rewrite bool_decide_eq_true_2 by exact Hover. reflexivity.
Qed.

(** X13: when the name and the phone both have a value, [handleSubmit]
    puts the success block in place of the content around the form, which
    takes the form out of the document, sets the one closing timer at 2500
    and logs the data; it shows no alert and leaves the modal as open as
    it was. *)
Theorem Modal_handleSubmit_filled
    (p : Page) (f fc : elem) (n nfc : Node) (name phone : string) :
  form (this_Modal p) = Some f ->
  nodes (world p) !! f = Some n ->
  el_tag n = "form" ->
  el_parent n = Some fc ->
  nodes (world p) !! fc = Some nfc ->
  submitted (nodes (world p)) f "name" = Some name -> name <> "" ->
  submitted (nodes (world p)) f "phone" = Some phone -> phone <> "" ->
  exists p',
    Modal.handleSubmit p = (Normal tt, p') /\
    el_innerHTML <$> nodes (world p') !! fc = Some (Some form_success) /\
    connected (nodes (world p')) f = false /\
    timers (world p') = (timers (world p) ++ [(Modal_closeThenReload, 2500)])%list /\
    alerts (world p') = alerts (world p) /\
    console (world p') =
      (console (world p) ++
       [("Form submitted:",
         Object_fromEntries (FormData_entries (nodes (world p)) f))])%list /\
    Modal.is_open p' = Modal.is_open p.
Proof.
  intros Hform Hnode Htag Hpar Hfc Hname Hne1 Hphone Hne2.
  unfold submitted in Hname, Hphone.
  unfold Modal.handleSubmit, Modal.new_FormData, bind, update_world, get, document.
  cbn [world this_Modal set_world set_defaultPrevented nodes id].
  rewrite Hform, Hnode. cbn [from_option]. rewrite Htag.
  cbn [String.eqb Ascii.eqb Bool.eqb ret].
  rewrite Hname, Hphone. cbn [truthy_string].
  apply String.eqb_neq in Hne1, Hne2. rewrite Hne1, Hne2. cbn [negb orb].
  unfold Modal.showSuccess, bind, get, document.
  cbn [world this_Modal set_world set_defaultPrevented nodes].
  rewrite Hform. cbn [deref ret world set_world set_defaultPrevented nodes].
  unfold elem in *. rewrite Hnode. cbn [mbind option_bind].
  rewrite Hpar. cbn [deref ret update_node update_world setTimeout console_log].
  eexists. split; [reflexivity|]. page_simpl.
  split; [|split; [|split; [reflexivity|split; [reflexivity|split; [reflexivity|]]]]].
  - unfold elem in *. rewrite list_lookup_alter_eq, Hfc. reflexivity.
  - apply (connected_overwritten _ f fc (set_innerHTML form_success nfc)).
    + rewrite lookup_alter_parent by reflexivity. unfold elem in *.
      rewrite Hnode. exact Hpar.
    + unfold elem in *. rewrite list_lookup_alter_eq, Hfc. reflexivity.
    + exists form_success. reflexivity.
  - unfold Modal.is_open. page_simpl.
    destruct (modal (this_Modal p)) as [m|]; [|reflexivity].
    apply (has_class_alter_keep (nodes (world p)) fc m "active"). reflexivity.
Qed.

(** X14: the closing timer hides the modal, releases the scroll and sets
    the one further timer, at 300, whose callback reloads the page; the
    first callback does not reload. *)
Theorem Modal_timers_spec (p : Page) :
  (exists p',
      Modal.run_callback Modal_closeThenReload p = (Normal false, p') /\
      Modal.is_open p' = false /\
      (modal (this_Modal p) <> None -> body_overflow (world p') = "") /\
      timers (world p') = (timers (world p) ++ [(Location_reload, 300)])%list) /\
  Modal.run_callback Location_reload p = (Normal true, p).
Proof.
  split; [|reflexivity].
  unfold Modal.run_callback, Modal.close, bind, get.
  destruct (modal (this_Modal p)) as [m|] eqn:Hm.
  - eexists. split; [reflexivity|]. split; [|split; reflexivity].
    unfold Modal.is_open. page_simpl. rewrite Hm.
    change (has_class (alter (set_classList (remove "active")) m (nodes (world p)))
              m "active" = false).
    destruct (nodes (world p) !! m) as [n|] eqn:Hn.
    + rewrite (has_class_alter_eq _ _ _ _ n Hn). apply contains_remove.
    + unfold has_class, elem in *. rewrite list_lookup_alter_eq, Hn. reflexivity.
  - eexists. split; [reflexivity|]. split; [|split; [congruence|reflexivity]].
    unfold Modal.is_open. cbn. rewrite Hm. reflexivity.
Qed.

(** ** Accordion *)

Lemma with_nodes_same (p : Page) : with_nodes (nodes (world p)) p = p.
Proof. destruct p as [[] ? ? ?]. reflexivity. Qed.

Lemma update_node_with_nodes (e : elem) (f : Node -> Node) (p : Page) :
  update_node e f p = (Normal tt, with_nodes (alter f e (nodes (world p))) p).
Proof. reflexivity. Qed.

Lemma has_class_missing (ns : list Node) (x : elem) (c : string) :
  ns !! x = None -> has_class ns x c = false.
Proof. intros H. unfold has_class, elem in *. rewrite H. reflexivity. Qed.

Lemma has_class_alter_remove (ns : list Node) (i x : elem) (c : string) :
  has_class (alter (set_classList (remove "active")) i ns) x c =
    if Nat.eqb x i && String.eqb c "active" then false else has_class ns x c.
Proof.
  destruct (Nat.eqb_spec x i) as [->|Hne]; cbn [andb].
  - destruct (ns !! i) as [n|] eqn:Hn.
    + rewrite (has_class_alter_eq _ _ _ _ n Hn).
      destruct (String.eqb_spec c "active") as [->|Hc].
      * apply contains_remove.
      * unfold has_class, elem in *. rewrite Hn. apply contains_remove_ne, Hc.
    + rewrite !has_class_missing;
        [destruct (String.eqb c "active"); reflexivity | exact Hn |].
      unfold elem in *. rewrite list_lookup_alter_eq, Hn. reflexivity.
  - apply has_class_alter_ne. congruence.
Qed.

Lemma collapse_step_has_class (ns : list Node) (i x : elem) (c : string) :
  has_class (collapse_step ns i) x c =
    if Nat.eqb x i && String.eqb c "active" then false else has_class ns x c.
Proof.
  unfold collapse_step.
  destruct (querySelector_in _ i (ByClass "accordion__content")) as [k|].
  - rewrite has_class_alter_keep by reflexivity. apply has_class_alter_remove.
  - apply has_class_alter_remove.
Qed.

Lemma collapse_all_has_class (items : list elem) (ns : list Node) (x : elem)
    (c : string) :
  has_class (fold_left collapse_step items ns) x c =
    if bool_decide (x ∈ items) && String.eqb c "active" then false
    else has_class ns x c.
Proof.
  revert ns. induction items as [|i items IH]; intros ns; [reflexivity|].
  cbn [fold_left]. rewrite IH, collapse_step_has_class.
  destruct (String.eqb c "active"); rewrite ?andb_false_r; [|reflexivity].
  rewrite !andb_true_r.
  destruct (Nat.eqb_spec x i) as [->|Hne].
  - rewrite (bool_decide_eq_true_2 (i ∈ i :: items)) by left.
    destruct (bool_decide (i ∈ items)); reflexivity.
  - destruct (bool_decide (x ∈ items)) eqn:Hin.
    + apply bool_decide_eq_true_1 in Hin.
      rewrite bool_decide_eq_true_2 by (right; exact Hin). reflexivity.
    + apply bool_decide_eq_false_1 in Hin.
      rewrite bool_decide_eq_false_2; [reflexivity|].
      intros [->|H]%elem_of_cons; [congruence | contradiction].
Qed.

(** The closing loop as a whole. *)
Lemma forEach_collapse (items : list elem) (p : Page) :
  forEach items
    (fun i =>
       update_node i (set_classList (remove "active")) ;;
       let* c :=
         document (fun ns => querySelector_in ns i (ByClass "accordion__content")) in
       match c with
       | Some c => update_node c (set_maxHeight None)
       | None => ret tt
       end)%js p =
  (Normal tt, with_nodes (fold_left collapse_step items (nodes (world p))) p).
Proof.
  revert p. induction items as [|i items IH]; intros p.
  - cbn [forEach fold_left]. rewrite with_nodes_same. reflexivity.
  - cbn [forEach fold_left]. unfold bind at 1.
    assert (Hstep :
      bind (update_node i (set_classList (remove "active")))
        (fun _ =>
           bind (document (fun ns =>
                   querySelector_in ns i (ByClass "accordion__content")))
             (fun c => match c with
                       | Some c => update_node c (set_maxHeight None)
                       | None => ret tt
                       end)) p =
      (Normal tt, with_nodes (collapse_step (nodes (world p)) i) p)).
    { unfold bind, document, collapse_step, update_node, update_world.
      cbn beta iota. page_simpl.
      destruct (querySelector_in _ i (ByClass "accordion__content")); reflexivity. }
    rewrite Hstep, IH. reflexivity.
Qed.

Lemma expand_with_nodes (content : elem) (p : Page) :
  Accordion.expand content p =
    (Normal tt,
     with_nodes
       (alter
          (set_maxHeight
             (Some (Number_toString
                      (Int (from_option el_scrollHeight 0 (nodes (world p) !! content)))
                    +:+ "px")))
          content (nodes (world p)))
       p).
Proof. reflexivity. Qed.

(** X15: a click on the header of an item of an accordion toggles that
    item and leaves every other item of the accordion closed: a closed
    item ends up the only open one, the open item ends up closed like the
    rest.  Classes other than [active], and the elements outside the
    accordion, are not touched. *)
Theorem Accordion_click_exclusive (p : Page) (item content par : elem) :
  closest (nodes (world p)) item (ByClass "accordion") = Some par ->
  item ∈ querySelectorAll_in (nodes (world p)) par (ByClass "accordion__item") ->
  exists p',
    Accordion.onHeaderClick item content p = (Normal tt, p') /\
    has_class (nodes (world p')) item "active" =
      negb (has_class (nodes (world p)) item "active") /\
    (forall i,
       i ∈ querySelectorAll_in (nodes (world p)) par (ByClass "accordion__item") ->
       i <> item ->
       has_class (nodes (world p')) i "active" = false) /\
    (forall x,
       x ∉ querySelectorAll_in (nodes (world p)) par (ByClass "accordion__item") ->
       has_class (nodes (world p')) x "active" =
       has_class (nodes (world p)) x "active") /\
    (forall x c, c <> "active" ->
       has_class (nodes (world p')) x c = has_class (nodes (world p)) x c).
Proof.
  intros Hpar Hitem.
  set (items := querySelectorAll_in (nodes (world p)) par (ByClass "accordion__item")) in *.
  unfold Accordion.onHeaderClick.
  unfold bind at 1. unfold document at 1. cbn beta iota.
  unfold bind at 1. unfold document at 1. cbn beta iota. rewrite Hpar.
  unfold bind at 1. unfold bind at 1. unfold document at 1. cbn beta iota.
  fold items. rewrite forEach_collapse.
  set (ns1 := fold_left collapse_step items (nodes (world p))).
  assert (Hcls : forall x c,
            has_class ns1 x c =
              if bool_decide (x ∈ items) && String.eqb c "active" then false
              else has_class (nodes (world p)) x c)
    by (intros; apply collapse_all_has_class).
  destruct (has_class (nodes (world p)) item "active") eqn:Hact; cbn [negb].
  - (* the open item is clicked: nothing is reopened *)
    eexists. split; [reflexivity|]. page_simpl. fold ns1.
    split; [|split; [|split]].
    + rewrite Hcls, bool_decide_eq_true_2 by exact Hitem. reflexivity.
    + intros i Hi _. rewrite Hcls, bool_decide_eq_true_2 by exact Hi. reflexivity.
    + intros x Hx. rewrite Hcls, bool_decide_eq_false_2 by exact Hx. reflexivity.
    + intros x c Hc. rewrite Hcls.
      apply String.eqb_neq in Hc. rewrite Hc, andb_false_r. reflexivity.
  - (* a closed item is clicked: it is opened after the loop *)
    unfold bind. rewrite update_node_with_nodes, expand_with_nodes. page_simpl.
    fold ns1. eexists. split; [reflexivity|]. page_simpl.
    assert (Hitem1 : exists n1, ns1 !! item = Some n1).
    { destruct (ns1 !! item) as [n1|] eqn:H1; [eauto|]. exfalso.
      apply select_spec in Hitem as (n & Hn & _).
      apply lookup_ge_None in H1. apply lookup_lt_Some in Hn.
      assert (Hlen : length ns1 = length (nodes (world p))).
      { unfold ns1. generalize (nodes (world p)). clear.
        induction items as [|i its IH]; intros l; [reflexivity|].
        cbn [fold_left]. rewrite IH. unfold collapse_step.
        destruct (querySelector_in _ i _); rewrite ?length_alter; reflexivity. }
      lia. }
    destruct Hitem1 as (n1 & Hn1).
    split; [|split; [|split]].
    + rewrite has_class_alter_keep by reflexivity.
      rewrite (has_class_alter_eq _ _ _ _ n1 Hn1). apply contains_add.
    + intros i Hi Hne. rewrite has_class_alter_keep by reflexivity.
      rewrite has_class_alter_ne by congruence.
      rewrite Hcls, bool_decide_eq_true_2 by exact Hi. reflexivity.
    + intros x Hx. rewrite has_class_alter_keep by reflexivity.
      rewrite has_class_alter_ne by (intros ->; contradiction).
      rewrite Hcls, bool_decide_eq_false_2 by exact Hx. reflexivity.
    + intros x c Hc. rewrite has_class_alter_keep by reflexivity.
      destruct (decide (item = x)) as [<-|Hne].
      * rewrite (has_class_alter_eq _ _ _ _ n1 Hn1).
        rewrite contains_add_ne by exact Hc.
        change (contains c (el_classList n1)) with
          (from_option (fun n => contains c (el_classList n)) false (Some n1)).
        rewrite <- Hn1. fold (has_class ns1 item c). rewrite Hcls.
        apply String.eqb_neq in Hc. rewrite Hc, andb_false_r. reflexivity.
      * rewrite has_class_alter_ne by exact Hne. rewrite Hcls.
        apply String.eqb_neq in Hc. rewrite Hc, andb_false_r. reflexivity.
Qed.

(** X16: outside any [.accordion] container nothing is closed: a click
    on the header of an open item leaves the page exactly as it is, and a
    click on a closed item opens it without touching another element's
    classes. *)
Theorem Accordion_click_no_container (p : Page) (item content : elem) (n : Node) :
  closest (nodes (world p)) item (ByClass "accordion") = None ->
  nodes (world p) !! item = Some n ->
  (has_class (nodes (world p)) item "active" = true ->
   Accordion.onHeaderClick item content p = (Normal tt, p)) /\
  (has_class (nodes (world p)) item "active" = false ->
   exists p',
     Accordion.onHeaderClick item content p = (Normal tt, p') /\
     has_class (nodes (world p')) item "active" = true /\
     forall x c, x <> item ->
       has_class (nodes (world p')) x c = has_class (nodes (world p)) x c).
Proof.
  intros Hpar Hn. split; intros Hact.
  - unfold Accordion.onHeaderClick, bind, document. cbn beta iota.
    rewrite Hpar, Hact. reflexivity.
  - unfold Accordion.onHeaderClick, bind, document. cbn beta iota.
    rewrite Hpar, Hact. cbn [ret negb].
    rewrite update_node_with_nodes, expand_with_nodes. page_simpl.
    eexists. split; [reflexivity|]. page_simpl. split.
    + rewrite has_class_alter_keep by reflexivity.
      rewrite (has_class_alter_eq _ _ _ _ n Hn). apply contains_add.
    + intros x c Hx. rewrite has_class_alter_keep by reflexivity.
      apply has_class_alter_ne. congruence.
Qed.

(** ** Initialisers *)

Lemma forEach_normal {A} (l : list A) (f : A -> M unit) :
  (forall x p, fst (f x p) = Normal tt) ->
  forall p, fst (forEach l f p) = Normal tt.
Proof.
  intros Hf. induction l as [|x l IH]; intros p; [reflexivity|].
  cbn [forEach]. unfold bind. specialize (Hf x p).
  destruct (f x p) as [c p1]. cbn in Hf. subst c. apply IH.
Qed.

Lemma with_listeners_same (p : Page) : with_listeners (listeners (world p)) p = p.
Proof. destruct p as [[] ? ? ?]. reflexivity. Qed.

(** A loop that only registers listeners. *)
Lemma forEach_addEventListener {A} (l : list A) (t : A -> Target) (type : string)
    (h : A -> Handler) (p : Page) :
  forEach l (fun x => addEventListener (t x) type (h x)) p =
    (Normal tt,
     with_listeners
       (listeners (world p) ++ map (fun x => mkListener (t x) type (h x)) l)%list p).
Proof.
  revert p. induction l as [|x l IH]; intros p.
  - cbn [forEach map]. rewrite app_nil_r, with_listeners_same. reflexivity.
  - cbn [forEach map]. unfold bind. cbn [addEventListener update_world].
    rewrite IH. page_simpl. rewrite <- app_assoc. reflexivity.
Qed.

(** X17: the initialisers of Header, Accordion, Modal, SmoothScroll and
    Animations complete normally on every page, whatever markup it has. *)
Theorem guarded_inits_never_throw (m : PageModule) (p : Page) :
  m <> mod_MobileMenu -> fst (module_init m p) = Normal tt.
Proof.
  intros Hm. destruct m; try contradiction; cbn [module_init].
  - destruct (Header_init_run p) as (p' & Hrun & _). rewrite Hrun. reflexivity.
  - unfold Accordion.init. unfold bind at 1. unfold document at 1. cbn beta iota.
    unfold bind at 1.
    match goal with
    | |- context [forEach ?l ?f p] =>
        pose proof (forEach_normal l f) as Hloop;
        destruct (forEach l f p) as [c p1] eqn:Hrun
    end.
    assert (Hc : c = Normal tt).
    { change c with (fst (c, p1)). rewrite <- Hrun. apply Hloop.
      intros x q. unfold bind, document. cbn beta iota.
      destruct (querySelector_in (nodes (world q)) x (ByClass "accordion__header"));
        destruct (querySelector_in (nodes (world q)) x (ByClass "accordion__content"));
        reflexivity. }
    subst c. unfold bind, document. cbn beta iota.
    destruct (querySelector (nodes (world p1)) (ByClass "accordion__item")) as [i|];
      [|reflexivity].
    rewrite update_node_with_nodes. page_simpl.
    match goal with
    | |- context [querySelector_in ?ns i ?sel] => destruct (querySelector_in ns i sel)
    end; reflexivity.
  - unfold Modal.init, bind, document, update_page. cbn beta iota.
    destruct (getElementById (nodes (world p)) "modal") as [md|]; [|reflexivity].
    rewrite forEach_addEventListener. page_simpl.
    rewrite forEach_addEventListener. page_simpl.
    destruct (getElementById (nodes (world p)) "lead-form"); reflexivity.
  - unfold SmoothScroll.init, bind, document. cbn beta iota.
    rewrite forEach_addEventListener. reflexivity.
  - unfold Animations.init, bind, document. cbn beta iota.
    destruct (length _ =? 0)%nat; [reflexivity|].
    apply forEach_normal. reflexivity.
Qed.

(** X18: with the [#modal] element present, [Modal.init] binds the modal
    and the form and registers, in this order, a click listener on every
    open trigger, one on every close trigger, the backdrop listener on the
    modal, the keydown listener on the document, and the submit listener
    on the form only when there is a form.  It writes to no element. *)
Theorem Modal_init_spec (p : Page) (m : elem) :
  getElementById (nodes (world p)) "modal" = Some m ->
  exists p',
    Modal.init p = (Normal tt, p') /\
    this_Modal p' =
      mkModalFields (Some m) (getElementById (nodes (world p)) "lead-form") /\
    nodes (world p') = nodes (world p) /\
    listeners (world p') =
      (listeners (world p) ++
       map (fun t => mkListener (Element t) "click" Modal_openClick)
         (querySelectorAll (nodes (world p)) (ByAttr "data-modal-open")) ++
       map (fun t => mkListener (Element t) "click" Modal_closeClick)
         (querySelectorAll (nodes (world p)) (ByAttr "data-modal-close")) ++
       [mkListener (Element m) "click" Modal_backdropClick;
        mkListener Document "keydown" Modal_escapeKey] ++
       match getElementById (nodes (world p)) "lead-form" with
       | Some f => [mkListener (Element f) "submit" Modal_submit]
       | None => []
       end)%list.
Proof.
  intros Hm. unfold Modal.init, bind, document, update_page. cbn beta iota.
  rewrite Hm. rewrite forEach_addEventListener. page_simpl.
  rewrite forEach_addEventListener. page_simpl.
  destruct (getElementById (nodes (world p)) "lead-form") as [f|];
    (eexists; split; [reflexivity|]); page_simpl;
    (split; [reflexivity|]); (split; [reflexivity|]).
  - rewrite <- !app_assoc. reflexivity.
  - rewrite <- !app_assoc. reflexivity.
Qed.

(** ** Mobile menu *)

(** X19: with the [.header__nav] element present, [MobileMenu.init] does
    not throw and writes to no element.  With the button present too it
    registers the button's click listener followed by one click listener
    per navigation link inside the panel; without the button it changes
    nothing. *)
Theorem MobileMenu_init_spec (p : Page) (nav : elem) :
  querySelector (nodes (world p)) (ByClass "header__nav") = Some nav ->
  (forall b,
      querySelector (nodes (world p)) (ByClass "header__menu-btn") = Some b ->
      exists p',
        MobileMenu.init p = (Normal tt, p') /\
        nodes (world p') = nodes (world p) /\
        listeners (world p') =
          (listeners (world p) ++
           mkListener (Element b) "click" (MobileMenu_buttonClick b nav) ::
           map (fun l => mkListener (Element l) "click" (MobileMenu_linkClick b nav))
             (querySelectorAll_in (nodes (world p)) nav (ByClass "header__nav-link")))%list) /\
  (querySelector (nodes (world p)) (ByClass "header__menu-btn") = None ->
   MobileMenu.init p = (Normal tt, p)).
Proof.
  intros Hnav. split.
  - intros b Hb. unfold MobileMenu.init, bind, document. cbn beta iota.
    rewrite Hb, Hnav. cbn [deref ret addEventListener update_world].
    rewrite forEach_addEventListener. page_simpl.
    eexists. split; [reflexivity|]. page_simpl. split; [reflexivity|].
    rewrite <- app_assoc. reflexivity.
  - intros Hb. unfold MobileMenu.init, bind, document. cbn beta iota.
    rewrite Hb, Hnav. reflexivity.
Qed.

(** X20: a click on the menu button flips the [active] class of the
    panel and of the button, and locks the page scroll exactly when the
    panel ends up open; a click on a navigation link closes both and
    releases the scroll.  No other class and no other element changes. *)
Theorem MobileMenu_clicks_spec (p : Page) (b nav : elem) (nb nn : Node) :
  b <> nav ->
  nodes (world p) !! b = Some nb ->
  nodes (world p) !! nav = Some nn ->
  (exists p',
      MobileMenu.onButtonClick b nav p = (Normal tt, p') /\
      has_class (nodes (world p')) nav "active" =
        negb (has_class (nodes (world p)) nav "active") /\
      has_class (nodes (world p')) b "active" =
        negb (has_class (nodes (world p)) b "active") /\
      body_overflow (world p') =
        (if has_class (nodes (world p')) nav "active" then "hidden" else "") /\
      (forall x c, (x <> b /\ x <> nav) \/ c <> "active" ->
         has_class (nodes (world p')) x c = has_class (nodes (world p)) x c)) /\
  (exists p',
      MobileMenu.onLinkClick b nav p = (Normal tt, p') /\
      has_class (nodes (world p')) nav "active" = false /\
      has_class (nodes (world p')) b "active" = false /\
      body_overflow (world p') = "" /\
      (forall x c, (x <> b /\ x <> nav) \/ c <> "active" ->
         has_class (nodes (world p')) x c = has_class (nodes (world p)) x c)).
Proof.
  intros Hne Hb Hn.
  assert (Hb' : forall g, alter (set_classList g) nav (nodes (world p)) !! b = Some nb).
  { intros g. unfold elem in *. rewrite list_lookup_alter_ne by congruence. exact Hb. }
  assert (Hcb : has_class (nodes (world p)) b "active" = contains "active" (el_classList nb)).
  { unfold has_class, elem in *. rewrite Hb. reflexivity. }
  assert (Hcn : has_class (nodes (world p)) nav "active" = contains "active" (el_classList nn)).
  { unfold has_class, elem in *. rewrite Hn. reflexivity. }
  split.
  - unfold MobileMenu.onButtonClick, bind, document. cbn beta iota.
    rewrite !update_node_with_nodes. page_simpl.
    eexists. split; [reflexivity|]. page_simpl.
    assert (Hnav' :
      has_class
        (alter (set_classList (toggle "active")) b
           (alter (set_classList (toggle "active")) nav (nodes (world p))))
        nav "active" = negb (has_class (nodes (world p)) nav "active")).
    { rewrite has_class_alter_ne by exact Hne.
      rewrite (has_class_alter_eq _ _ _ _ nn Hn), Hcn. apply contains_toggle. }
    split; [exact Hnav'|]. split; [|split; [reflexivity|]].
    + rewrite (has_class_alter_eq _ _ _ _ nb (Hb' _)), Hcb. apply contains_toggle.
    + intros x c [[Hxb Hxn]|Hc].
      * rewrite !has_class_alter_ne by congruence. reflexivity.
      * destruct (decide (b = x)) as [<-|Hxb].
        -- rewrite (has_class_alter_eq _ _ _ _ nb (Hb' _)).
           unfold has_class, elem in *. rewrite Hb. apply contains_toggle_ne, Hc.
        -- rewrite has_class_alter_ne by exact Hxb.
           destruct (decide (nav = x)) as [<-|Hxn].
           ++ rewrite (has_class_alter_eq _ _ _ _ nn Hn).
              unfold has_class, elem in *. rewrite Hn. apply contains_toggle_ne, Hc.
           ++ apply has_class_alter_ne, Hxn.
  - unfold MobileMenu.onLinkClick, bind. cbn beta iota.
    rewrite !update_node_with_nodes. page_simpl.
    eexists. split; [reflexivity|]. page_simpl.
    split; [|split; [|split; [reflexivity|]]].
    + rewrite has_class_alter_ne by exact Hne.
      rewrite (has_class_alter_eq _ _ _ _ nn Hn). apply contains_remove.
    + rewrite (has_class_alter_eq _ _ _ _ nb (Hb' _)). apply contains_remove.
    + intros x c H. rewrite !has_class_alter_remove.
      destruct H as [[Hxb Hxn]|Hc].
      * apply Nat.eqb_neq in Hxb, Hxn. rewrite Hxb, Hxn. reflexivity.
      * apply String.eqb_neq in Hc. rewrite Hc, !andb_false_r. reflexivity.
Qed.

(** X21: the modal and the mobile menu share the one scroll lock:
    closing the modal releases the scroll although the menu panel is
    still open. *)
Theorem Modal_close_releases_menu_lock (p : Page) (m nav : elem) :
  modal (this_Modal p) = Some m ->
  m <> nav ->
  has_class (nodes (world p)) nav "active" = true ->
  exists p',
    Modal.close p = (Normal tt, p') /\
    has_class (nodes (world p')) nav "active" = true /\
    body_overflow (world p') = "".
Proof.
  intros Hm Hne Hact. rewrite (Modal_close_bound p m Hm).
  eexists. split; [reflexivity|]. page_simpl. split; [|reflexivity].
  rewrite has_class_alter_ne by exact Hne. exact Hact.
Qed.

(** ** Animations *)

Lemma forEach_observe (l : list elem) (p : Page) :
  forEach l Animations.observe p =
    (Normal tt, set_world (set_observed (fun o => (o ++ l)%list)) p).
Proof.
  revert p. induction l as [|x l IH]; intros p.
  - cbn [forEach]. destruct p as [[] ? ? ?]. unfold ret, set_world, set_observed.
    cbn [world nodes listeners body_overflow scrollY defaultPrevented alerts
         console timers observed this_Header this_Modal this_Calculator].
    rewrite app_nil_r. reflexivity.
  - cbn [forEach]. unfold bind, Animations.observe at 1, update_world.
    rewrite IH. unfold set_world, set_observed.
    cbn [world nodes listeners body_overflow scrollY defaultPrevented alerts
         console timers observed this_Header this_Modal this_Calculator].
    rewrite <- app_assoc. reflexivity.
Qed.

(** X22: [Animations.init] puts under observation exactly the elements of
    class [fade-in], in document order, and changes nothing else. *)
Theorem Animations_init_spec (p : Page) :
  exists p',
    Animations.init p = (Normal tt, p') /\
    observed (world p') =
      (observed (world p) ++ querySelectorAll (nodes (world p)) (ByClass "fade-in"))%list /\
    nodes (world p') = nodes (world p) /\
    listeners (world p') = listeners (world p).
Proof.
  unfold Animations.init, bind, document. cbn beta iota.
  destruct (querySelectorAll (nodes (world p)) (ByClass "fade-in")) as [|x l] eqn:Hq.
  - cbn [length Nat.eqb]. eexists. split; [reflexivity|].
    rewrite app_nil_r. repeat split.
  - cbn [length Nat.eqb]. rewrite forEach_observe.
    eexists. split; [reflexivity|]. repeat split.
Qed.

Lemma onIntersect_cons (entry : elem * bool) (entries : list (elem * bool)) (p : Page) :
  Animations.onIntersect (entry :: entries) p =
    Animations.onIntersect entries
      (if snd entry then
         set_world (set_observed (List.filter (fun x => negb (Nat.eqb x (fst entry)))))
           (with_nodes
              (alter (set_classList (add "visible")) (fst entry) (nodes (world p))) p)
       else p).
Proof.
  unfold Animations.onIntersect. cbn [forEach]. unfold bind at 1.
  destruct (snd entry); reflexivity.
Qed.

(** X23: the observer's callback is one-shot per element: the target of
    an intersecting entry gets the class [visible] and leaves the
    observed list; the other elements keep their classes and stay
    observed or not as they were; no class is ever taken away. *)
Theorem Animations_onIntersect_spec (entries : list (elem * bool)) (p : Page) :
  exists p',
    Animations.onIntersect entries p = (Normal tt, p') /\
    (forall x, In (x, true) entries ->
       ~ In x (observed (world p')) /\
       (is_Some (nodes (world p) !! x) ->
        has_class (nodes (world p')) x "visible" = true)) /\
    (forall x, ~ In (x, true) entries ->
       (In x (observed (world p')) <-> In x (observed (world p))) /\
       forall c, has_class (nodes (world p')) x c = has_class (nodes (world p)) x c) /\
    (forall x c, has_class (nodes (world p)) x c = true ->
       has_class (nodes (world p')) x c = true) /\
    (forall x, In x (observed (world p')) -> In x (observed (world p))).
Proof.
  revert p. induction entries as [|[t b] entries IH]; intros p.
  - exists p. split; [reflexivity|]. split; [intros x []|].
    split; [intros x _; split; [reflexivity|reflexivity]|].
    split; [intros x c H; exact H | intros x H; exact H].
  - rewrite onIntersect_cons. cbn [fst snd]. destruct b.
    + (* an intersecting entry *)
      set (p1 := set_world _ _).
      destruct (IH p1) as (p' & Hrun & Hhit & Hmiss & Hkeep & Hobs).
      exists p'. split; [exact Hrun|].
      assert (Hcls1 : forall x c,
                has_class (nodes (world p)) x c = true ->
                has_class (nodes (world p1)) x c = true).
      { intros x c H. subst p1. page_simpl.
        destruct (decide (t = x)) as [<-|Hne].
        - destruct (nodes (world p) !! t) as [n|] eqn:Hn.
          + rewrite (has_class_alter_eq _ _ _ _ n Hn).
            unfold has_class, elem in *. rewrite Hn in H. cbn in H.
            apply contains_true, In_add. left. apply contains_true, H.
          + rewrite has_class_missing in H by exact Hn. discriminate H.
        - rewrite has_class_alter_ne by exact Hne. exact H. }
      assert (Hobs1 : forall x,
                In x (observed (world p1)) <-> In x (observed (world p)) /\ x <> t).
      { intros x. subst p1. page_simpl. rewrite filter_In, negb_true_iff, Nat.eqb_neq.
        reflexivity. }
      split; [|split; [|split]].
      * intros x [Heq|Hin].
        -- inversion Heq; subst x. split.
           ++ intros Hx. apply Hobs, Hobs1 in Hx. destruct Hx as [_ Hx]. congruence.
           ++ intros [n Hn]. apply Hkeep. subst p1. page_simpl.
              rewrite (has_class_alter_eq _ _ _ _ n Hn). apply contains_add.
        -- destruct (Hhit x Hin) as [H1 H2]. split; [exact H1|].
           intros [n Hn]. apply H2. subst p1. page_simpl.
           apply lookup_lt_is_Some. rewrite length_alter.
           apply lookup_lt_Some in Hn. exact Hn.
      * intros x Hx.
        assert (Hxt : x <> t) by (intros ->; apply Hx; left; reflexivity).
        assert (Hx' : ~ In (x, true) entries) by (intros H; apply Hx; right; exact H).
        destruct (Hmiss x Hx') as [H1 H2]. split.
        -- rewrite H1, Hobs1. tauto.
        -- intros c. rewrite H2. subst p1. page_simpl.
           apply has_class_alter_ne. congruence.
      * intros x c H. apply Hkeep, Hcls1, H.
      * intros x H. apply Hobs, Hobs1 in H. tauto.
    + (* an entry that does not intersect *)
      destruct (IH p) as (p' & Hrun & Hhit & Hmiss & Hkeep & Hobs).
      exists p'. split; [exact Hrun|]. split; [|split; [|split]].
      * intros x [Heq|Hin]; [discriminate Heq | apply Hhit, Hin].
      * intros x Hx. apply Hmiss. intros H. apply Hx. right. exact H.
      * exact Hkeep.
      * exact Hobs.
Qed.

(** ** Calculator bindings *)

Lemma same_inputs_refl (p : Page) : same_inputs p p.
Proof. repeat split. Qed.

Lemma same_inputs_trans (p q r : Page) :
  same_inputs p q -> same_inputs q r -> same_inputs p r.
Proof.
  intros (H1 & H2 & H3 & H4) (K1 & K2 & K3 & K4).
  repeat split; congruence.
Qed.

Lemma keeps_ret {A} (a : A) : keeps_inputs (ret a).
Proof. intros p. apply same_inputs_refl. Qed.

Lemma keeps_throw {A} (e : Error) : keeps_inputs (@throw A e).
Proof. intros p. apply same_inputs_refl. Qed.

Lemma keeps_get : keeps_inputs get.
Proof. intros p. apply same_inputs_refl. Qed.

Lemma keeps_document {A} (q : list Node -> A) : keeps_inputs (document q).
Proof. intros p. apply same_inputs_refl. Qed.

Lemma keeps_deref (what : string) (r : option elem) : keeps_inputs (deref what r).
Proof. destruct r; [apply keeps_ret | apply keeps_throw]. Qed.

Lemma keeps_bind {A B} (m : M A) (k : A -> M B) :
  keeps_inputs m -> (forall a, keeps_inputs (k a)) -> keeps_inputs (bind m k).
Proof.
  intros Hm Hk p. unfold bind. specialize (Hm p).
  destruct (m p) as [[a|e] p1]; cbn [snd] in *; [|exact Hm].
  eapply same_inputs_trans; [exact Hm | apply Hk].
Qed.

Lemma map_structure_alter (f : Node -> Node) (e : elem) (ns : list Node) :
  (forall n, structure (f n) = structure n) ->
  map structure (alter f e ns) = map structure ns.
Proof.
  intros Hf. revert e. induction ns as [|n ns IH]; intros [|e]; cbn; f_equal; auto.
Qed.

Lemma keeps_update_node (e : elem) (f : Node -> Node) :
  (forall n, structure (f n) = structure n) -> keeps_inputs (update_node e f).
Proof.
  intros Hf p. repeat split. cbn. apply map_structure_alter, Hf.
Qed.

Lemma keeps_when_present (r : option elem) (f : elem -> M unit) :
  (forall e, keeps_inputs (f e)) -> keeps_inputs (when_present r f).
Proof. intros Hf. destruct r; [apply Hf | apply keeps_ret]. Qed.

Ltac keeps :=
  repeat first
    [ apply keeps_bind; [|intros ?]
    | apply keeps_ret
    | apply keeps_get
    | apply keeps_document
    | apply keeps_deref
    | apply keeps_when_present; intros ?
    | apply keeps_update_node; reflexivity
    | match goal with
      | |- keeps_inputs (if ?b then _ else _) => destruct b
      | |- keeps_inputs (match ?o with _ => _ end) => destruct o
      end ].

Lemma lookup_map_structure (ns' ns : list Node) (x : elem) :
  map structure ns' = map structure ns ->
  structure <$> ns' !! x = structure <$> ns !! x.
Proof.
  revert ns x. induction ns' as [|n' ns' IH]; intros [|n ns] x H;
    try discriminate H; [reflexivity|].
  cbn [map] in H. apply (f_equal head) in H as Hn. apply (f_equal tail) in H as Hns.
  cbn in Hn, Hns. destruct x as [|x]; cbn.
  - congruence.
  - apply IH, Hns.
Qed.

Lemma keeps_slider_area : keeps_inputs slider_area.
Proof. unfold slider_area. keeps. Qed.





(** Queries see the structure of the store only. *)
Lemma ancestors_same_structure (ns' ns : list Node) (fuel : nat) (x : elem) :
  map structure ns' = map structure ns ->
  ancestors ns' fuel x = ancestors ns fuel x.
Proof.
  intros Hs. revert x. induction fuel as [|fuel IH]; intros x; [reflexivity|].
  cbn [ancestors].
  assert (Hp : ns' !! x ≫= el_parent = ns !! x ≫= el_parent).
  { pose proof (lookup_map_structure _ _ x Hs) as Hx. unfold elem in *.
    destruct (ns' !! x), (ns !! x); cbn in *; try congruence.
    unfold structure in Hx. congruence. }
  rewrite Hp. destruct (ns !! x ≫= el_parent); [rewrite IH|]; reflexivity.
Qed.



Lemma descendant_same_structure (ns' ns : list Node) (root x : elem) :
  map structure ns' = map structure ns ->
  descendant_of ns' root x = descendant_of ns root x.
Proof.
  intros Hs. unfold descendant_of.
  assert (Hlen : length ns' = length ns).
  { apply (f_equal (@length _)) in Hs. rewrite !length_map in Hs. exact Hs. }
  rewrite Hlen, (ancestors_same_structure _ _ _ _ Hs). reflexivity.
Qed.







(** X26: with the slider present but no frequency radio checked,
    [Calculator.init] throws in its first [update]: the three kinds of
    listeners are already registered, and nothing has been rendered. *)
Theorem Calculator_init_no_checked_radio
    (NumberFormat_ru : value -> string) (p : Page) (s : elem) :
  getElementById (nodes (world p)) "area-slider" = Some s ->
  querySelector (nodes (world p)) (ByTagAttrChecked "input" "name" "frequency") = None ->
  exists p',
    Calculator.init NumberFormat_ru p =
      (Throw (TypeError "document.querySelector(...) is null"), p') /\
    nodes (world p') = nodes (world p) /\
    listeners (world p') =
      (listeners (world p) ++
       mkListener (Element s) "input" Calculator_update ::
       map (fun o => mkListener (Element o) "change" Calculator_update)
         (querySelectorAll (nodes (world p)) (ByTagAttr "input" "name" "frequency")) ++
       [mkListener (Element s) "input" Calculator_updateOptionPrices])%list.
Proof.
  intros Hs Hq.
  unfold Calculator.init, init_fields, bind, document, update_page, get.
  cbn beta iota. page_simpl. cbn [slider options]. rewrite Hs.
  cbn [addEventListener update_world]. rewrite forEach_addEventListener. page_simpl.
  unfold update, slider_area, bind, get, document. cbn beta iota. page_simpl.
  cbn [slider deref ret]. page_simpl. rewrite Hq. cbn [deref throw].
  eexists. split; [reflexivity|]. page_simpl. split; [reflexivity|].
  rewrite <- !app_assoc. reflexivity.
Qed.
















(** * The further properties on the sample pages *)

Lemma Header_onScroll_spec_witness :
  header (this_Header (scrolled_to 120 site_loaded)) = Some 0%nat /\
  exists p',
    Header.onScroll (scrolled_to 120 site_loaded) = (Normal tt, p') /\
    has_class (nodes (world p')) 0%nat "header--scrolled" = true.
Proof.
  split; [reflexivity|].
  destruct (proj1 (Header_onScroll_spec (scrolled_to 120 site_loaded)) 0%nat
              (element "header" "" ["header"] [] None "" false))
    as (p' & Hrun & Hcls & _); [reflexivity | reflexivity |].
  exists p'. split; [exact Hrun | rewrite Hcls; reflexivity].
Defined.

Lemma Header_init_spec_witness :
  querySelector (nodes (world site_page)) (ByClass "header") = Some 0%nat /\
  exists p',
    Header.init site_page = (Normal tt, p') /\
    listeners (world p') = [mkListener Window "scroll" Header_onScroll] /\
    has_class (nodes (world p')) 0%nat "header--scrolled" = false.
Proof.
  split; [reflexivity|].
  destruct (Header_init_spec site_page) as (p' & Hrun & _ & Hh).
  destruct (Hh 0%nat) as [Hl Hc]; [reflexivity|].
  exists p'. split; [exact Hrun|]. split; [rewrite Hl | rewrite Hc]; reflexivity.
Defined.

Lemma Modal_open_close_spec_witness :
  modal (this_Modal site_loaded) = Some 15%nat /\
  (exists p1,
      Modal.open site_loaded = (Normal tt, p1) /\
      Modal.is_open p1 = true /\ body_overflow (world p1) = "hidden") /\
  (exists p2,
      Modal.close site_loaded = (Normal tt, p2) /\
      Modal.is_open p2 = false /\ body_overflow (world p2) = "").
Proof.
  split; [reflexivity|].
  destruct (Modal_open_close_spec site_loaded 15%nat
              (element "div" "modal" ["modal"] [] None "" false))
    as [(p1 & H1 & H2 & H3 & _) (p2 & K1 & K2 & K3 & _)];
    [reflexivity | reflexivity |].
  split; [exists p1 | exists p2]; repeat split; assumption.
Defined.

Lemma Modal_open_then_close_witness :
  modal (this_Modal site_loaded) = Some 15%nat /\
  Modal.is_open site_loaded = false /\
  exists p1 p2,
    Modal.open site_loaded = (Normal tt, p1) /\
    Modal.close p1 = (Normal tt, p2) /\
    nodes (world p2) = nodes (world site_loaded).
Proof.
  split; [reflexivity|]. split; [reflexivity|].
  destruct (Modal_open_then_close site_loaded 15%nat)
    as (p1 & p2 & H1 & _ & H3 & H4 & _); [reflexivity | reflexivity |].
  exists p1, p2. repeat split; assumption.
Defined.

Lemma Modal_dismiss_spec_witness :
  modal (this_Modal site_loaded) = Some 15%nat /\
  Modal.is_open site_loaded = false /\
  Modal.onKeydown (mkEvent Document "Escape") site_loaded = (Normal tt, site_loaded) /\
  ev_target (mkEvent (Element 16%nat) "") <> Element 15%nat /\
  Modal.onBackdropClick (mkEvent (Element 16%nat) "") site_loaded =
    (Normal tt, site_loaded).
Proof.
  split; [reflexivity|]. split; [reflexivity|].
  destruct (Modal_dismiss_spec site_loaded 15%nat (mkEvent Document "Escape"))
    as (_ & Hkey & _); [reflexivity|].
  destruct (Modal_dismiss_spec site_loaded 15%nat (mkEvent (Element 16%nat) ""))
    as (_ & _ & _ & Hclick); [reflexivity|].
  split; [apply Hkey; right; reflexivity|].
  split; [discriminate|]. apply Hclick. discriminate.
Defined.

Lemma Modal_handleSubmit_filled_witness :
  form (this_Modal landing_page_filled) = Some 5%nat /\
  submitted (nodes (world landing_page_filled)) 5%nat "phone" = Some "+7 900 000-00-00" /\
  exists p',
    Modal.handleSubmit landing_page_filled = (Normal tt, p') /\
    connected (nodes (world p')) 5%nat = false /\
    timers (world p') = [(Modal_closeThenReload, 2500)] /\
    Modal.is_open p' = true.
Proof.
  split; [reflexivity|]. split; [reflexivity|].
  destruct (Modal_handleSubmit_filled landing_page_filled 5%nat 4%nat
              (element "form" "lead-form" ["form"] [] (Some 4%nat) "" false)
              (element "div" "" ["modal__content"] [] (Some 3%nat) "" false)
              "Анна" "+7 900 000-00-00")
    as (p' & Hrun & _ & Hc & Ht & _ & _ & Ho);
    [reflexivity | reflexivity | reflexivity | reflexivity | reflexivity
    | reflexivity | discriminate | reflexivity | discriminate |].
  exists p'. split; [exact Hrun|]. split; [exact Hc|].
  split; [rewrite Ht | rewrite Ho]; reflexivity.
Defined.

Lemma Modal_timers_spec_witness :
  modal (this_Modal landing_page_modal_open) <> None /\
  Modal.is_open landing_page_modal_open = true /\
  exists p',
    Modal.run_callback Modal_closeThenReload landing_page_modal_open = (Normal false, p') /\
    Modal.is_open p' = false /\
    body_overflow (world p') = "" /\
    timers (world p') = [(Location_reload, 300)].
Proof.
  split; [discriminate|]. split; [reflexivity|].
  destruct (proj1 (Modal_timers_spec landing_page_modal_open))
    as (p' & Hrun & Ho & Hb & Ht).
  exists p'. split; [exact Hrun|]. split; [exact Ho|].
  split; [apply Hb; discriminate | rewrite Ht; reflexivity].
Defined.

Lemma Accordion_click_exclusive_witness :
  closest (nodes (world site_loaded)) 9%nat (ByClass "accordion") = Some 5%nat /\
  has_class (nodes (world site_loaded)) 6%nat "active" = true /\
  exists p',
    Accordion.onHeaderClick 9%nat 11%nat site_loaded = (Normal tt, p') /\
    has_class (nodes (world p')) 9%nat "active" = true /\
    has_class (nodes (world p')) 6%nat "active" = false.
Proof.
  split; [reflexivity|]. split; [reflexivity|].
  assert (H9 : 9%nat ∈ querySelectorAll_in (nodes (world site_loaded)) 5%nat
                 (ByClass "accordion__item")).
  { apply (bool_decide_unpack _). vm_compute. exact I. }
  assert (H6 : 6%nat ∈ querySelectorAll_in (nodes (world site_loaded)) 5%nat
                 (ByClass "accordion__item")).
  { apply (bool_decide_unpack _). vm_compute. exact I. }
  destruct (Accordion_click_exclusive site_loaded 9%nat 11%nat 5%nat)
    as (p' & Hrun & Hitem & Hothers & _); [reflexivity | exact H9 |].
  exists p'. split; [exact Hrun|]. split; [rewrite Hitem; reflexivity|].
  apply Hothers; [exact H6 | discriminate].
Defined.

Lemma Accordion_click_no_container_witness :
  closest (nodes (world site_loaded)) 12%nat (ByClass "accordion") = None /\
  has_class (nodes (world site_loaded)) 12%nat "active" = false /\
  exists p',
    Accordion.onHeaderClick 12%nat 14%nat site_loaded = (Normal tt, p') /\
    has_class (nodes (world p')) 12%nat "active" = true /\
    has_class (nodes (world p')) 6%nat "active" = true /\
    Accordion.onHeaderClick 12%nat 14%nat p' = (Normal tt, p').
Proof.
  split; [reflexivity|]. split; [reflexivity|].
  destruct (Accordion_click_no_container site_loaded 12%nat 14%nat
              (element "div" "" ["accordion__item"; "fade-in"] [] None "" false))
    as [_ Hopen]; [reflexivity | reflexivity |].
  destruct (Hopen eq_refl) as (p' & Hrun & Hitem & Hrest).
  exists p'. split; [exact Hrun|]. split; [exact Hitem|].
  split; [rewrite Hrest by discriminate; reflexivity|].
  assert (Hp' : p' = snd (Accordion.onHeaderClick 12%nat 14%nat site_loaded))
    by (rewrite Hrun; reflexivity).
  destruct (Accordion_click_no_container p' 12%nat 14%nat
              (mkNode "div" "" ["accordion__item"; "fade-in"; "active"] [] None ""
                 false 0 None None None None))
    as [Hstay _]; [rewrite Hp'; reflexivity | rewrite Hp'; reflexivity |].
  apply Hstay, Hitem.
Defined.

Lemma guarded_inits_never_throw_witness :
  mod_Accordion <> mod_MobileMenu /\
  fst (module_init mod_Accordion site_page) = Normal tt /\
  fst (module_init mod_Modal landing_page) = Normal tt.
Proof.
  split; [discriminate|].
  split; apply guarded_inits_never_throw; discriminate.
Defined.

Lemma Modal_init_spec_witness :
  getElementById (nodes (world landing_page)) "modal" = Some 3%nat /\
  exists p',
    Modal.init landing_page = (Normal tt, p') /\
    this_Modal p' = mkModalFields (Some 3%nat) (Some 5%nat) /\
    listeners (world p') =
      [ mkListener (Element 2%nat) "click" Modal_openClick;
        mkListener (Element 3%nat) "click" Modal_backdropClick;
        mkListener Document "keydown" Modal_escapeKey;
        mkListener (Element 5%nat) "submit" Modal_submit ].
Proof.
  split; [reflexivity|].
  destruct (Modal_init_spec landing_page 3%nat) as (p' & Hrun & Hthis & _ & Hl);
    [reflexivity|].
  exists p'. split; [exact Hrun|]. split; [rewrite Hthis | rewrite Hl]; reflexivity.
Defined.

Lemma MobileMenu_init_spec_witness :
  querySelector (nodes (world site_page)) (ByClass "header__nav") = Some 2%nat /\
  querySelector (nodes (world site_page)) (ByClass "header__menu-btn") = Some 1%nat /\
  exists p',
    MobileMenu.init site_page = (Normal tt, p') /\
    listeners (world p') =
      [ mkListener (Element 1%nat) "click" (MobileMenu_buttonClick 1%nat 2%nat);
        mkListener (Element 3%nat) "click" (MobileMenu_linkClick 1%nat 2%nat);
        mkListener (Element 4%nat) "click" (MobileMenu_linkClick 1%nat 2%nat) ].
Proof.
  split; [reflexivity|]. split; [reflexivity|].
  destruct (MobileMenu_init_spec site_page 2%nat) as [Hboth _]; [reflexivity|].
  destruct (Hboth 1%nat) as (p' & Hrun & _ & Hl); [reflexivity|].
  exists p'. split; [exact Hrun | rewrite Hl; reflexivity].
Defined.

Lemma MobileMenu_clicks_spec_witness :
  1%nat <> 2%nat /\
  has_class (nodes (world site_loaded)) 2%nat "active" = false /\
  (exists p',
      MobileMenu.onButtonClick 1%nat 2%nat site_loaded = (Normal tt, p') /\
      has_class (nodes (world p')) 2%nat "active" = true /\
      has_class (nodes (world p')) 1%nat "active" = true /\
      body_overflow (world p') = "hidden") /\
  (exists p',
      MobileMenu.onLinkClick 1%nat 2%nat site_menu_open = (Normal tt, p') /\
      has_class (nodes (world p')) 2%nat "active" = false /\
      body_overflow (world p') = "").
Proof.
  split; [discriminate|]. split; [reflexivity|]. split.
  - destruct (MobileMenu_clicks_spec site_loaded 1%nat 2%nat
                (element "button" "" ["header__menu-btn"] [] (Some 0%nat) "" false)
                (element "nav" "" ["header__nav"] [] (Some 0%nat) "" false))
      as [(p' & Hrun & Hn & Hb & Ho & _) _];
      [discriminate | reflexivity | reflexivity |].
    exists p'. split; [exact Hrun|]. split; [rewrite Hn; reflexivity|].
    split; [rewrite Hb; reflexivity|]. rewrite Ho, Hn. reflexivity.
  - destruct (MobileMenu_clicks_spec site_menu_open 1%nat 2%nat
                (mkNode "button" "" ["header__menu-btn"; "active"] [] (Some 0%nat) ""
                   false 0 None None None None)
                (mkNode "nav" "" ["header__nav"; "active"] [] (Some 0%nat) ""
                   false 0 None None None None))
      as [_ (p' & Hrun & Hn & _ & Ho & _)];
      [discriminate | reflexivity | reflexivity |].
    exists p'. split; [exact Hrun|]. split; [exact Hn | exact Ho].
Defined.

Lemma Modal_close_releases_menu_lock_witness :
  modal (this_Modal site_menu_open) = Some 15%nat /\
  has_class (nodes (world site_menu_open)) 2%nat "active" = true /\
  body_overflow (world site_menu_open) = "hidden" /\
  exists p',
    Modal.close site_menu_open = (Normal tt, p') /\
    has_class (nodes (world p')) 2%nat "active" = true /\
    body_overflow (world p') = "".
Proof.
  split; [reflexivity|]. split; [reflexivity|]. split; [reflexivity|].
  apply (Modal_close_releases_menu_lock site_menu_open 15%nat 2%nat);
    [reflexivity | discriminate | reflexivity].
Defined.

Lemma Animations_onIntersect_spec_witness :
  observed (world site_loaded) = [12%nat; 17%nat] /\
  In (17%nat, true) [(12%nat, false); (17%nat, true)] /\
  exists p',
    Animations.onIntersect [(12%nat, false); (17%nat, true)] site_loaded =
      (Normal tt, p') /\
    ~ In 17%nat (observed (world p')) /\
    has_class (nodes (world p')) 17%nat "visible" = true /\
    In 12%nat (observed (world p')) /\
    has_class (nodes (world p')) 12%nat "visible" = false.
Proof.
  split; [reflexivity|]. split; [simpl; tauto|].
  destruct (Animations_onIntersect_spec [(12%nat, false); (17%nat, true)] site_loaded)
    as (p' & Hrun & Hhit & Hmiss & _).
  destruct (Hhit 17%nat) as [H1 H2]; [simpl; tauto|].
  destruct (Hmiss 12%nat) as [H3 H4].
  { simpl. intros [H|[H|[]]]; discriminate H. }
  exists p'. split; [exact Hrun|]. split; [exact H1|].
  split; [apply H2; eexists; reflexivity|].
  split; [apply H3; simpl; tauto | rewrite H4; reflexivity].
Defined.

Lemma Calculator_init_no_checked_radio_witness :
  getElementById (nodes (world calculator_unchecked_page)) "area-slider" = Some 0%nat /\
  querySelector (nodes (world calculator_unchecked_page))
    (ByTagAttrChecked "input" "name" "frequency") = None /\
  exists p',
    Calculator.init ru_format calculator_unchecked_page =
      (Throw (TypeError "document.querySelector(...) is null"), p') /\
    nodes (world p') = nodes (world calculator_unchecked_page) /\
    length (listeners (world p')) = 4%nat.
Proof.
  split; [reflexivity|]. split; [reflexivity|].
  destruct (Calculator_init_no_checked_radio ru_format calculator_unchecked_page 0%nat)
    as (p' & Hrun & Hn & Hl); [reflexivity | reflexivity |].
  exists p'. split; [exact Hrun|]. split; [exact Hn | rewrite Hl; reflexivity].
Defined.


